(** * TextFromImageExtractor: a shallow embedding of
      [src/text_from_image_extractor.py] and the properties of its
      name-extraction pipeline.

    The pipeline is: skew correction, OCR, text filtering, named-entity
    recognition, bounding-box association, fuzzy scoring.  The OCR engine,
    the entity recogniser and the image codec are capabilities of the
    environment; the orchestration around them is embedded function by
    function. *)

From Stdlib Require Import List String Ascii ZArith QArith Bool Lia Lqa.
From Stdlib Require Import PrimFloat.
Import ListNotations.

Local Open Scope string_scope.
Local Open Scope list_scope.

(* ================================================================== *)
(** * Python strings

    Text is modelled over the byte alphabet of [string]; the OCR reader is
    built for English ([easyocr.Reader(['en'])]), whose letters are the
    ASCII ones.  A code point above 127 is never alphabetic or cased in
    this model. *)

Module PyStr.

Definition code (c : ascii) : nat := nat_of_ascii c.

(** ['A' <= c <= 'Z'] *)
Definition isupper (c : ascii) : bool :=
  (65 <=? code c)%nat && (code c <=? 90)%nat.

(** ['a' <= c <= 'z'] *)
Definition islower (c : ascii) : bool :=
  (97 <=? code c)%nat && (code c <=? 122)%nat.

(** [c.isalpha()] *)
Definition isalpha (c : ascii) : bool := isupper c || islower c.

Definition upper (c : ascii) : ascii :=
  if islower c then ascii_of_nat (code c - 32) else c.

Definition lower (c : ascii) : ascii :=
  if isupper c then ascii_of_nat (code c + 32) else c.

Definition space : ascii := " "%char.

(** [''.join([i for i in text if p(i)])] *)
Fixpoint keep (p : ascii -> bool) (s : string) : string :=
  match s with
  | EmptyString => EmptyString
  | String c r => if p c then String c (keep p r) else keep p r
  end.

(** [s.title()]: a character that follows a cased character is
    lower-cased, any other character is upper-cased; [previous_is_cased]
    is the flag of CPython's loop. *)
Fixpoint title_from (previous_is_cased : bool) (s : string) : string :=
  match s with
  | EmptyString => EmptyString
  | String c r =>
      String (if previous_is_cased then lower c else upper c)
             (title_from (isalpha c) r)
  end.

Definition title (s : string) : string := title_from false s.

(** [s.split(sep)] for a one-character separator: every occurrence of
    the separator cuts, so empty tokens are kept and the result is never
    empty. *)
Fixpoint split (sep : ascii) (s : string) : list string :=
  match s with
  | EmptyString => [EmptyString]
  | String c r =>
      if Ascii.eqb c sep then EmptyString :: split sep r
      else match split sep r with
           | [] => [String c EmptyString]
           | w :: ws => String c w :: ws
           end
  end.

Fixpoint In_str (c : ascii) (s : string) : Prop :=
  match s with
  | EmptyString => False
  | String c' r => c' = c \/ In_str c r
  end.

End PyStr.

(* ================================================================== *)
(** * Python dictionaries with string keys

    A [dict] keeps its keys in insertion order; assigning to a key that is
    already present replaces the value and leaves the key where it is. *)

Module PyDict.

Section Dict.
Context {V : Type}.

Definition t := list (string * V).

Definition empty : t := [].

(** [d[k]], [None] standing for [KeyError] *)
Fixpoint get (d : t) (k : string) : option V :=
  match d with
  | [] => None
  | (k', v) :: r => if String.eqb k' k then Some v else get r k
  end.

(** [d[k] = v] *)
Fixpoint set (d : t) (k : string) (v : V) : t :=
  match d with
  | [] => [(k, v)]
  | (k', v') :: r =>
      if String.eqb k' k then (k', v) :: r else (k', v') :: set r k v
  end.

(** [d.keys()] *)
Definition keys (d : t) : list string := map fst d.

End Dict.

Arguments t : clear implicits.

End PyDict.

(* ================================================================== *)
(** * Data of the pipeline *)

(** A corner as the OCR engine reports it, and after [int(...)]. *)
Definition raw_point : Type := (Q * Q)%type.
Definition point : Type := (Z * Z)%type.
Definition raw_bbox : Type := list raw_point.
Definition bbox : Type := list point.

(** One element of [reader.readtext(image)]: [(bbox, text, score)]. *)
Record ocr_triple : Type := Triple {
  t_bbox : raw_bbox;
  t_text : string;
  t_score : Q
}.

(** An element of [document.ents]. *)
Record entity : Type := Ent {
  label_ : string;
  text : string
}.

(** The dictionary returned by [text_extraction_and_landmarking]. *)
Record extraction_result : Type := Result {
  full_name : string;
  first_name : string;
  last_name : string;
  box : bbox
}.

(** The exceptions the module can raise. *)
Inductive exn : Type :=
| IndexError      (* list index out of range *)
| KeyError        (* missing dictionary key *)
| Cv2Error        (* cv2 applied to an image that could not be read *)
| UnidentifiedImageError   (* PIL cannot open the file as an image *)
| FileNotFoundError        (* the file to open does not exist *)
| ValueError      (* PIL knows no format for the extension *)
| OSError.        (* the file or the image cannot be written *)

(** [int(x)]: truncation toward zero. *)
Definition py_int (x : Q) : Z := Z.quot (Qnum x) (Zpos (Qden x)).

(** [bbox[i][j] = int(bbox[i][j])] for every corner [i] and [j] in 0, 1. *)
Definition int_bbox (b : raw_bbox) : bbox :=
  map (fun p => (py_int (fst p), py_int (snd p))) b.

(** [x > y] on scores. *)
Definition Qgtb (x y : Q) : bool := negb (Qle_bool x y).

Module TextLocator.

Definition threshold : Q := 25 # 100.

(** [preprocessed_text]: keep letters and spaces, then title-case. *)
Definition preprocess (s : string) : string :=
  PyStr.title
    (PyStr.keep (fun i => PyStr.isalpha i || Ascii.eqb i PyStr.space) s).

(** A triple passes the confidence filter. *)
Definition retained (t : ocr_triple) : bool := Qgtb (t_score t) threshold.

(** One iteration of the loop of [extract_text]. *)
Definition step (text_and_boxes : PyDict.t bbox) (t : ocr_triple)
  : PyDict.t bbox :=
  let b := int_bbox (t_bbox t) in
  let preprocessed_text := preprocess (t_text t) in
  if Qgtb (t_score t) threshold
  then PyDict.set text_and_boxes preprocessed_text b
  else text_and_boxes.

(** The loop of [extract_text] over the OCR output [text_], started
    from a dictionary. *)
Definition collect_from (d : PyDict.t bbox) (text_ : list ocr_triple)
  : PyDict.t bbox :=
  fold_left step text_ d.

Definition collect (text_ : list ocr_triple) : PyDict.t bbox :=
  collect_from PyDict.empty text_.

End TextLocator.

(* ================================================================== *)
(** * Name Identifier: [ner] *)

Module NameIdentifier.

(** [ent.label_ == "PERSON" and len(ent.text.split(" ")) == 2] *)
Definition accepted (ent : entity) : bool :=
  String.eqb (label_ ent) "PERSON"
  && (List.length (PyStr.split PyStr.space (text ent)) =? 2)%nat.

(** The inner loop of [ner], over [document.ents]. *)
Fixpoint scan_ents (ents : list entity) (results : list string)
  : list string :=
  match ents with
  | [] => results
  | ent :: r =>
      if accepted ent then scan_ents r (results ++ [text ent])
      else scan_ents r results
  end.

(** The outer loop of [ner], over [text_and_boxes.keys()]; [nlp] is the
    loaded spaCy pipeline seen as a function from a text to its
    entities. *)
Fixpoint scan_keys (nlp : string -> list entity) (ks : list string)
    (results : list string) : list string :=
  match ks with
  | [] => results
  | k :: r => scan_keys nlp r (scan_ents (nlp k) results)
  end.

Definition ner (nlp : string -> list entity)
    (text_and_boxes : PyDict.t bbox) : list string :=
  scan_keys nlp (PyDict.keys text_and_boxes) [].

End NameIdentifier.

(* ================================================================== *)
(** * Extraction Orchestrator: the body of
      [text_extraction_and_landmarking] after [extract_text] *)

Module Orchestrator.

(** [xs[i]] *)
Definition index {A : Type} (xs : list A) (i : nat) : exn + A :=
  match nth_error xs i with
  | Some x => inr x
  | None => inl IndexError
  end.

(** [d[k]] *)
Definition lookup (d : PyDict.t bbox) (k : string) : exn + bbox :=
  match PyDict.get d k with
  | Some v => inr v
  | None => inl KeyError
  end.

Definition bind {A B : Type} (c : exn + A) (f : A -> exn + B) : exn + B :=
  match c with
  | inl e => inl e
  | inr x => f x
  end.

Notation "x <- c ;; k" := (bind c (fun x => k))
  (at level 61, c at next level, right associativity).

(** Lines 70 to 88: from the fragment mapping to the result. *)
Definition landmarking (nlp : string -> list entity)
    (text_and_boxes : PyDict.t bbox) : exn + extraction_result :=
  let ner_results := NameIdentifier.ner nlp text_and_boxes in
  top_ner_result <- index ner_results 0 ;;
  let splitted_name := PyStr.split PyStr.space top_ner_result in
  first <- index splitted_name 0 ;;
  last <- index splitted_name 1 ;;
  b <- lookup text_and_boxes top_ner_result ;;
  inr (Result top_ner_result first last b).

End Orchestrator.

(* ================================================================== *)
(** * Skew Corrector: the angle folding of [get_angle]

    Angles are degrees.  The code computes on binary floating-point
    numbers; every one of them is a rational, negation is exact, and
    [90 + angle] is exact for an angle between -90 and -45, so the
    rationals carry the same values. *)

Module SkewAngle.

Definition Qltb (x y : Q) : bool := negb (Qle_bool y x).

(** Lines 198 to 202. *)
Definition normalize (angle : Q) : Q :=
  if Qltb angle (-45 # 1) then - ((90 # 1) + angle) else - angle.

(** The same lines on binary64 numbers, as Python evaluates them. *)
Definition normalize_float (angle : PrimFloat.float) : PrimFloat.float :=
  if PrimFloat.ltb angle (-45)%float
  then PrimFloat.opp (PrimFloat.add 90%float angle)
  else PrimFloat.opp angle.

End SkewAngle.

(* ================================================================== *)
(** * Similarity Scorer *)

Module Fuzz.

(** Modelled from the spec: [fuzz.ratio] of the [thefuzz] package, which
    [get_similarity_score] calls and which is not among the sources.  The
    spec describes it as a Levenshtein-ratio similarity: the
    character-level edit distance, normalized to a percentage between 0
    and 100 and returned as an integer.  The edit distance of the
    Levenshtein ratio counts an insertion or a deletion 1 and a
    substitution 2; two empty strings are maximally equal. *)
Fixpoint distance (a : string) : string -> nat :=
  match a with
  | EmptyString => fun b => String.length b
  | String x a' =>
      fix inner (b : string) : nat :=
        match b with
        | EmptyString => S (String.length a')
        | String y b' =>
            Nat.min
              (Nat.min (1 + distance a' b) (1 + inner b'))
              ((if Ascii.eqb x y then 0 else 2) + distance a' b')
        end
  end%nat.

(** Modelled from the spec: the score is an integer, so the percentage
    is rounded as [int(round(n / d))] does for [0 <= n] and [0 < d]: to
    the nearest integer, a tie to the even one. *)
Definition round_div (n d : Z) : Z :=
  let q := (n / d)%Z in
  let r := (n mod d)%Z in
  if (2 * r <? d)%Z then q
  else if (d <? 2 * r)%Z then (q + 1)%Z
  else if Z.even q then q else (q + 1)%Z.

(** Modelled from the spec: [fuzz.ratio(s1, s2)], the share of the two
    strings' characters that the edit distance leaves in place, as a
    percentage. *)
Definition ratio (s1 s2 : string) : Z :=
  let lensum := Z.of_nat (String.length s1 + String.length s2) in
  if (lensum =? 0)%Z then 100%Z
  else round_div (100 * (lensum - Z.of_nat (distance s1 s2))) lensum.

End Fuzz.

(** [get_similarity_score]: line 107. *)
Definition get_similarity_score (extracted_result real_result : string) : Z :=
  Fuzz.ratio extracted_result real_result.

(* ================================================================== *)
(** * The environment: files, codec, OCR and NER capabilities *)

Definition bytes : Type := list Byte.byte.

(** What the module asks of the file system, OpenCV, PIL, EasyOCR and
    spaCy.  OpenCV and PIL decode a file separately, into an array and
    into an image, and either may fail where the other succeeds. *)
Record Capabilities : Type := {
  (** what [cv2.imread] returns: a pixel array *)
  Array : Type;
  (** what [Image.open] returns *)
  Image : Type;
  (** the file a path names: two paths that resolve alike ([data/x],
      [./data/x], [raw/../data/x]) are one file *)
  resolve : string -> string;
  (** decoding by [cv2.imread]: [None] when the content is no image *)
  imread : bytes -> option Array;
  (** decoding by [Image.open], together with the loading PIL defers to
      the first use of the image: the image, or the exception raised when
      the content is no image or is damaged *)
  pil_open : bytes -> exn + Image;
  (** [img.save(path)]: the bytes written, in the format the extension
      of [path] names, or the exception raised ([ValueError] for an
      extension that names no format, [OSError] for an image the format
      cannot hold or a path that cannot be written) *)
  save : string -> Image -> exn + bytes;
  (** what a failed [img.save(path)] leaves of the file at [path], given
      what was there *)
  save_residue : string -> Image -> option bytes -> option bytes;
  (** [cv2.bitwise_not(cv2.cvtColor(img, cv2.COLOR_BGR2GRAY))] *)
  gray_inverted : Array -> Array;
  (** lines 195 to 197: Otsu threshold, foreground coordinates,
      [cv2.minAreaRect(coords)[-1]], for an image that has foreground
      pixels *)
  rect_angle : Array -> Q;
  (** [img.rotate(angle)] *)
  rotate : Q -> Image -> Image;
  (** [easyocr.Reader(['en'], gpu=False)]: loading the models, which may
      fetch and store them and may raise; the files it leaves *)
  new_reader : (string -> option bytes)
               -> (exn + unit) * (string -> option bytes);
  (** [reader.readtext(image)] *)
  readtext : Array -> list ocr_triple;
  (** [nlp(text).ents] *)
  nlp : string -> list entity
}.

(** The object: its two folder attributes. *)
Record TextFromImageExtractor : Type := {
  raw_data_folder : string;
  processed_data_folder : string
}.

(** What an invocation does to the outside, in order; files are named
    by what their paths resolve to. *)
Inductive event : Type :=
| ReadFile (file : string)
| WriteFile (file : string)
| FailedWrite (file : string)
| LoadReader
| RunOcr.

(** The files, by what their paths resolve to, and what has been done so
    far. *)
Record world : Type := World {
  files : string -> option bytes;
  trace : list event
}.

Module Run.

(** Computations that read and write the world and may raise; the world
    reached when an exception is raised is kept. *)
Definition M (A : Type) : Type := world -> (exn + A) * world.

Definition ret {A : Type} (x : A) : M A := fun w => (inr x, w).

Definition raise {A : Type} (e : exn) : M A := fun w => (inl e, w).

Definition bind {A B : Type} (c : M A) (f : A -> M B) : M B :=
  fun w =>
    match c w with
    | (inl e, w') => (inl e, w')
    | (inr x, w') => f x w'
    end.

Definition lift {A : Type} (r : exn + A) : M A := fun w => (r, w).

Definition emit (e : event) : M unit :=
  fun w => (inr tt, World (files w) (trace w ++ [e])).

(** The store with the content of one file replaced. *)
Definition put (fs : string -> option bytes) (file : string)
    (content : option bytes) : string -> option bytes :=
  fun f => if String.eqb f file then content else fs f.

Definition write_file (file : string) (content : bytes) : M unit :=
  fun w =>
    (inr tt,
     World (put (files w) file (Some content))
           (trace w ++ [WriteFile file])).

Definition read_file (file : string) : M (option bytes) :=
  fun w => (inr (files w file), World (files w) (trace w ++ [ReadFile file])).

End Run.

Module Extractor.

Import Run.

Notation "x <- c ;; k" := (bind c (fun x => k))
  (at level 61, c at next level, right associativity).
Notation "c ;;; k" := (bind c (fun _ => k))
  (at level 61, right associativity).

Section WithCapabilities.

Variable E : Capabilities.
Variable self : TextFromImageExtractor.

(** [cv2.imread(path)]: [None] when the file is missing or cannot be
    decoded; no exception. *)
Definition cv2_imread (path : string) : M (option (Array E)) :=
  content <- read_file (resolve E path) ;;
  ret (match content with
       | Some b => imread E b
       | None => None
       end).

(** [cv2.cvtColor] then [cv2.bitwise_not]; [cv2.cvtColor(None, ...)]
    raises. *)
Definition to_gray_inverted (img : option (Array E)) : exn + Array E :=
  match img with
  | Some i => inr (gray_inverted E i)
  | None => inl Cv2Error
  end.

(** [get_angle] *)
Definition get_angle (cv2_img : option (Array E)) : exn + Q :=
  match to_gray_inverted cv2_img with
  | inl e => inl e
  | inr gray => inr (SkewAngle.normalize (rect_angle E gray))
  end.

(** [Image.open(path)] *)
Definition image_open (path : string) : M (Image E) :=
  content <- read_file (resolve E path) ;;
  match content with
  | Some b => lift (pil_open E b)
  | None => raise FileNotFoundError
  end.

(** [img.save(path)]: on success the file holds the bytes written; on
    failure the exception escapes and the file is what the failed save
    leaves. *)
Definition image_save (img : Image E) (path : string) : M unit :=
  fun w =>
    let file := resolve E path in
    match save E path img with
    | inr content => write_file file content w
    | inl e =>
        (inl e,
         World (put (files w) file
                    (save_residue E path img (files w file)))
               (trace w ++ [FailedWrite file]))
    end.

(** [correct_skew] *)
Definition correct_skew (image_path : string) : M unit :=
  img <- cv2_imread (raw_data_folder self ++ image_path)%string ;;
  angle <- lift (get_angle img) ;;
  img <- image_open (raw_data_folder self ++ image_path)%string ;;
  let img := if negb (Qeq_bool angle 0) then rotate E angle img else img in
  let process_path := (processed_data_folder self ++ image_path)%string in
  image_save img process_path.

(** [easyocr.Reader(['en'], gpu=False)] *)
Definition make_reader : M unit :=
  fun w =>
    let (outcome, fs) := new_reader E (files w) in
    (outcome, World fs (trace w ++ [LoadReader])).

(** [extract_text] *)
Definition extract_text (image_path : string) : M (PyDict.t bbox) :=
  correct_skew image_path ;;;
  image <- cv2_imread (processed_data_folder self ++ image_path)%string ;;
  image <- lift (to_gray_inverted image) ;;
  make_reader ;;;
  emit RunOcr ;;;
  let text_ := readtext E image in
  ret (TextLocator.collect text_).

(** [text_extraction_and_landmarking] *)
Definition text_extraction_and_landmarking (image_path : string)
  : M extraction_result :=
  text_and_boxes <- extract_text image_path ;;
  lift (Orchestrator.landmarking (nlp E) text_and_boxes).

End WithCapabilities.

End Extractor.

(* ================================================================== *)
(** * Reading aids for the statements *)

(** The box written last for key [k] by the loop of [extract_text] over
    [text_], if any triple of [text_] writes that key. *)
Fixpoint last_write (k : string) (text_ : list ocr_triple) : option bbox :=
  match text_ with
  | [] => None
  | t :: r =>
      match last_write k r with
      | Some b => Some b
      | None =>
          if TextLocator.retained t
             && String.eqb (TextLocator.preprocess (t_text t)) k
          then Some (int_bbox (t_bbox t))
          else None
      end
  end.

(** Every entity the recogniser reports over the keys, in order. *)
Definition all_ents (nlp : string -> list entity) (ks : list string)
  : list entity :=
  flat_map nlp ks.

(** The image [correct_skew] saves, for the array OpenCV and the image
    PIL decoded from the raw file. *)
Definition deskewed (E : Capabilities) (cv2_img : Array E) (img : Image E)
  : Image E :=
  let angle := SkewAngle.normalize (rect_angle E (gray_inverted E cv2_img)) in
  if negb (Qeq_bool angle 0) then rotate E angle img else img.

(** The normalized skew lies in (-45, 45]. *)
Definition in_half_turn (a : Q) : Prop := (-45 # 1) < a /\ a <= (45 # 1).

(* ================================================================== *)
(** * A small concrete environment, for running the model *)

Module Sample.

(** A recogniser that reports one PERSON entity per text: the text
    without its leading ["Name "] label when it has one, the whole text
    otherwise.  Every entity is a span of the text it was found in. *)
Definition span_nlp (s : string) : list entity :=
  if String.prefix "Name " s
  then [Ent "PERSON" (String.substring 5 (String.length s - 5) s)]
  else [Ent "PERSON" s].

(** A recogniser that finds nothing. *)
Definition blind_nlp (s : string) : list entity := [].

Definition jane_box : bbox := [(1, 1); (2, 1); (2, 2); (1, 2)]%Z.

Definition raw_box : raw_bbox :=
  [(1 # 1, 1 # 1); (5 # 2, 1 # 1); (5 # 2, 2 # 1); (1 # 1, 2 # 1)].

Definition other_box : raw_bbox :=
  [(7 # 1, 7 # 1); (9 # 1, 7 # 1); (9 # 1, 8 # 1); (7 # 1, 8 # 1)].

(** The format a path asks for is PNG. *)
Definition is_png (path : string) : bool :=
  String.eqb (String.substring (String.length path - 4) 4 path) ".png".

(** A path with a leading ["./"] names the same file as without it. *)
Definition plain_path (path : string) : string :=
  if String.prefix "./" path
  then String.substring 2 (String.length path - 2) path
  else path.

(** A file is a one-byte header followed by the pixels; both decoders
    drop the header, saving writes the header [x00] and only knows the
    extension [.png].  The first pixel of an image tells its rectangle
    angle: [x01] for -60 degrees, anything else for 0. *)
Definition caps : Capabilities := {|
  Array := list Byte.byte;
  Image := list Byte.byte;
  resolve := plain_path;
  imread := fun b => match b with [] => None | _ :: px => Some px end;
  pil_open := fun b =>
    match b with
    | [] => inl UnidentifiedImageError
    | _ :: px => inr px
    end;
  save := fun path px =>
    if is_png path then inr (Byte.x00 :: px) else inl ValueError;
  save_residue := fun _ _ old => old;
  gray_inverted := fun px => px;
  rect_angle := fun px =>
    match px with
    | Byte.x01 :: _ => -60 # 1
    | _ => 0 # 1
    end;
  rotate := fun _ px => rev px;
  new_reader := fun fs => (inr tt, fs);
  readtext := fun _ => [Triple raw_box "Jane Doe" (9 # 10)];
  nlp := span_nlp
|}.

(** The same environment with a recogniser that finds no entity. *)
Definition blind_caps : Capabilities := {|
  Array := Array caps;
  Image := Image caps;
  resolve := resolve caps;
  imread := imread caps;
  pil_open := pil_open caps;
  save := save caps;
  save_residue := save_residue caps;
  gray_inverted := gray_inverted caps;
  rect_angle := rect_angle caps;
  rotate := rotate caps;
  new_reader := new_reader caps;
  readtext := fun _ => [Triple raw_box "Republic" (9 # 10)];
  nlp := blind_nlp
|}.

Definition two_folders : TextFromImageExtractor :=
  {| raw_data_folder := "raw/"; processed_data_folder := "processed/" |}.



(** A level image with a header other than the encoder's. *)
Definition level_file : bytes := [Byte.x07; Byte.x02; Byte.x03].

(** A skewed image. *)
Definition skewed_file : bytes := [Byte.x00; Byte.x01; Byte.x02].

Definition disk (folder : string) (content : bytes) : world :=
  World (fun p => if String.eqb p (folder ++ "id.png")%string
                  then Some content else None)
        [].

(** A disk with one file. *)
Definition disk_at (file : string) (content : bytes) : world :=
  World (fun p => if String.eqb p file then Some content else None) [].

Definition empty_disk : world := World (fun _ => None) [].

End Sample.

(* ================================================================== *)
(** * The upload endpoint: [upload_file] of [app.py] *)

Module App.

(** [s.endswith(suffix)]: some tail of [s] is [suffix]. *)
Fixpoint endswith (s suffix : string) : bool :=
  String.eqb s suffix
  || match s with
     | EmptyString => false
     | String _ r => endswith r suffix
     end.

(** [os.path.join(a, b)] on a POSIX system: an absolute [b] replaces
    [a]; a separator is inserted unless [a] is empty or ends with one. *)
Definition path_join (a b : string) : string :=
  if String.prefix "/" b then b
  else if String.eqb a "" || endswith a "/" then (a ++ b)%string
  else (a ++ "/" ++ b)%string.

(** An entry of [request.files]: the client's file name and the bytes
    sent. *)
Record file_storage : Type := {
  filename : string;
  stream : bytes
}.

(** What [upload_file] reads of the request: [request.files.get('file')]
    and [request.form.get]. *)
Record request : Type := {
  file_part : option file_storage;
  form : string -> option string
}.

(** What [upload_file] returns: [jsonify({"error": msg}), status], or
    the result object with status 200. *)
Inductive response : Type :=
| JsonError (error : string) (status : Z)
| JsonResult (first_name last_name : string) (bonding_box_cords : bbox)
             (similarity_score : Z).

(** What [upload_file] lets escape: calling [.title()] on [None], or an
    exception of the file system or of the extractor. *)
Inductive failure : Type :=
| AttributeError
| Raised (e : exn).

(** What [upload_file] asks of werkzeug, of the file system and of
    Python's strings. *)
Record Server : Type := {
  (** werkzeug's [secure_filename] *)
  secure_filename : string -> string;
  (** the exception [file.save(path)] raises when [path] cannot be
      opened for writing (it names a folder, or its folder is missing),
      if any *)
  refused : string -> option exn;
  (** [s.title()] on the text of a form field, with Python's case
      rules for all of Unicode *)
  str_title : string -> string
}.

(** The allowed-format test, line 40: [all(...)] over the three
    extensions. *)
Definition format_rejected (name : string) : bool :=
  forallb (fun allowed_format => endswith name allowed_format)
          [".jpeg"; ".jpg"; ".png"].

(** [file.save(file_path)] *)
Definition save_upload (E : Capabilities) (S : Server)
    (file_path : string) (content : bytes) : world -> (exn + unit) * world :=
  fun w =>
    match refused S file_path with
    | Some e => (inl e, w)
    | None => Run.write_file (resolve E file_path) content w
    end.

(** [upload_file], lines 33 to 71.  The application builds the
    extractor from the same folder it saves uploads to, [self]'s raw
    folder.  The [try] around the concatenation of the two title-cased
    names guards an operation on two strings, which does not raise. *)
Definition upload_file (E : Capabilities) (self : TextFromImageExtractor)
    (S : Server) (req : request)
  : world -> (failure + response) * world :=
  fun w =>
    match file_part req with
    | None => (inr (JsonError "No file part in the request" 400), w)
    | Some file =>
        if format_rejected (filename file)
        then (inr (JsonError
                     "Invalid file format. Should be .jpeg, .jpg or .png"
                     400), w)
        else
          let name := secure_filename S (filename file) in
          let file_path := path_join (raw_data_folder self) name in
          match save_upload E S file_path (stream file) w with
          | (inl e, w1) => (inl (Raised e), w1)
          | (inr _, w1) =>
              match form req "first_name" with
              | None => (inl AttributeError, w1)
              | Some first =>
                  let first_name_real := str_title S first in
                  match form req "last_name" with
                  | None => (inl AttributeError, w1)
                  | Some last =>
                      let last_name_real := str_title S last in
                      let full_name_real :=
                        (first_name_real ++ " " ++ last_name_real)%string in
                      match Extractor.text_extraction_and_landmarking
                              E self name w1 with
                      | (inl e, w2) => (inl (Raised e), w2)
                      | (inr result, w2) =>
                          let similarity_score :=
                            get_similarity_score (full_name result)
                                                 full_name_real in
                          (inr (JsonResult (first_name result)
                                           (last_name result)
                                           (box result)
                                           similarity_score), w2)
                      end
                  end
              end
          end
    end.

End App.

(* ================================================================== *)
(** * More reading aids *)

(** The triples that pass the confidence filter. *)
Definition retained_triples (text_ : list ocr_triple) : list ocr_triple :=
  filter TextLocator.retained text_.

(** Every character of [s] is a letter or a space. *)
Definition letters_and_spaces (s : string) : Prop :=
  forall c, PyStr.In_str c s -> PyStr.isalpha c = true \/ c = PyStr.space.

(** [s] with every letter in lower case. *)
Fixpoint lowercase (s : string) : string :=
  match s with
  | EmptyString => EmptyString
  | String c r => String (PyStr.lower c) (lowercase r)
  end.

(** [sep.join(tokens)] *)
Fixpoint join (sep : ascii) (tokens : list string) : string :=
  match tokens with
  | [] => EmptyString
  | [w] => w
  | w :: ws => (w ++ String sep (join sep ws))%string
  end.

(** Every character of [s] is an ASCII character. *)
Definition ascii_only (s : string) : Prop :=
  forall c, PyStr.In_str c s -> (PyStr.code c < 128)%nat.

(** A computation leaves what was done before in place and only adds to
    it. *)
Definition only_appends {A : Type} (c : Run.M A) : Prop :=
  forall w, exists later, trace (snd (c w)) = trace w ++ later.

Module SampleApp.

(** A server whose [secure_filename] leaves plain names alone, that
    refuses to write to a path ending with a slash, and whose title-casing
    is the one of ASCII text. *)
Definition server : App.Server := {|
  App.secure_filename := fun s => s;
  App.refused := fun path =>
    if App.endswith path "/" then Some OSError else None;
  App.str_title := PyStr.title
|}.

Definition upload (name : string) (first last : option string)
  : App.request :=
  {| App.file_part := Some {| App.filename := name;
                              App.stream := Sample.level_file |};
     App.form := fun k =>
       if String.eqb k "first_name" then first
       else if String.eqb k "last_name" then last
       else None |}.

Definition no_slash : TextFromImageExtractor :=
  {| raw_data_folder := "raw"; processed_data_folder := "processed/" |}.

End SampleApp.

(* ================================================================== *)
(** * Dictionaries: lookup after assignment *)

Section DictFacts.

Context {V : Type}.
Implicit Types (d : PyDict.t V) (k : string) (v : V).

Lemma get_set_same d k v : PyDict.get (PyDict.set d k v) k = Some v.
Proof.
  induction d as [|[k' v'] r IH]; simpl.
  - now rewrite String.eqb_refl.
  - destruct (String.eqb k' k) eqn:Hk; simpl; rewrite Hk; auto.
Qed.

Lemma get_set_other d k k0 v :
  k <> k0 -> PyDict.get (PyDict.set d k v) k0 = PyDict.get d k0.
Proof.
  intros Hne. induction d as [|[k' v'] r IH]; simpl.
  - destruct (String.eqb_spec k k0); [contradiction | reflexivity].
  - destruct (String.eqb_spec k' k) as [->|Hk]; simpl.
    + destruct (String.eqb_spec k k0); [contradiction | reflexivity].
    + now rewrite IH.
Qed.

Lemma in_set d k v k0 v0 :
  In (k0, v0) (PyDict.set d k v) -> (k0, v0) = (k, v) \/ In (k0, v0) d.
Proof.
  induction d as [|[k' v'] r IH]; simpl.
  - intros [H|[]]; auto.
  - destruct (String.eqb_spec k' k) as [->|Hk]; simpl.
    + intros [H|H]; auto.
    + intros [H|H]; auto. destruct (IH H); auto.
Qed.

Lemma keys_set_in d k v k0 :
  In k0 (PyDict.keys (PyDict.set d k v)) <-> k0 = k \/ In k0 (PyDict.keys d).
Proof.
  unfold PyDict.keys.
  induction d as [|[k' v'] r IH]; simpl.
  - intuition.
  - destruct (String.eqb_spec k' k) as [->|Hk]; simpl.
    + intuition.
    + rewrite IH. intuition.
Qed.

Lemma keys_set_nodup d k v :
  NoDup (PyDict.keys d) -> NoDup (PyDict.keys (PyDict.set d k v)).
Proof.
  induction d as [|[k' v'] r IH]; simpl; intros Hnd.
  - constructor; [intros [] | constructor].
  - inversion Hnd as [|? ? Hnotin Hr]; subst.
    destruct (String.eqb_spec k' k) as [->|Hk]; simpl.
    + constructor; assumption.
    + constructor; [|now apply IH].
      intros Hin. apply keys_set_in in Hin. destruct Hin; auto.
Qed.

Lemma get_some_in_keys d k v : PyDict.get d k = Some v -> In k (PyDict.keys d).
Proof.
  induction d as [|[k' v'] r IH]; simpl; [discriminate|].
  destruct (String.eqb_spec k' k); auto.
Qed.

Lemma in_keys_get d k : In k (PyDict.keys d) -> exists v, PyDict.get d k = Some v.
Proof.
  induction d as [|[k' v'] r IH]; simpl; [intros []|].
  destruct (String.eqb_spec k' k) as [->|Hk].
  - eauto.
  - intros [H|H]; [contradiction | auto].
Qed.

End DictFacts.

(* ================================================================== *)
(** * Text Locator *)

Lemma Qgtb_true x y : Qgtb x y = true <-> y < x.
Proof.
  unfold Qgtb. rewrite negb_true_iff. split.
  - intros H. apply Qnot_le_lt. intros Hle.
    apply Qle_bool_iff in Hle. congruence.
  - intros H. destruct (Qle_bool x y) eqn:Hb; [|reflexivity].
    apply Qle_bool_iff in Hb. exfalso. exact (Qlt_not_le _ _ H Hb).
Qed.

Lemma Qgtb_false x y : Qgtb x y = false <-> x <= y.
Proof.
  unfold Qgtb. rewrite negb_false_iff. apply Qle_bool_iff.
Qed.

Lemma step_discards d t :
  t_score t <= TextLocator.threshold -> TextLocator.step d t = d.
Proof.
  intros H. unfold TextLocator.step.
  apply Qgtb_false in H. now rewrite H.
Qed.

Lemma collect_from_in l : forall d k b,
  In (k, b) (TextLocator.collect_from d l) ->
  In (k, b) d \/
  exists t, In t l /\ TextLocator.threshold < t_score t /\
            k = TextLocator.preprocess (t_text t) /\
            b = int_bbox (t_bbox t).
Proof.
  unfold TextLocator.collect_from.
  induction l as [|t r IH]; simpl; intros d k b Hin; [now left|].
  apply IH in Hin. destruct Hin as [Hin|(t' & Ht' & Hs & Hk & Hb)].
  - unfold TextLocator.step in Hin.
    destruct (Qgtb (t_score t) TextLocator.threshold) eqn:Hq; [|now left].
    apply in_set in Hin. destruct Hin as [Heq|Hin]; [|now left].
    right. exists t. inversion Heq; subst.
    repeat split; auto. now apply Qgtb_true.
  - right. exists t'. auto.
Qed.

Lemma collect_from_nodup l : forall d,
  NoDup (PyDict.keys d) -> NoDup (PyDict.keys (TextLocator.collect_from d l)).
Proof.
  unfold TextLocator.collect_from.
  induction l as [|t r IH]; simpl; intros d Hd; [assumption|].
  apply IH. unfold TextLocator.step.
  destruct (Qgtb _ _); [now apply keys_set_nodup | assumption].
Qed.

(** The value found under a key after the loop is the one written last. *)
Lemma collect_from_get l : forall d k,
  PyDict.get (TextLocator.collect_from d l) k =
  match last_write k l with
  | Some b => Some b
  | None => PyDict.get d k
  end.
Proof.
  unfold TextLocator.collect_from.
  induction l as [|t r IH]; simpl; intros d k; [reflexivity|].
  rewrite IH. destruct (last_write k r); [reflexivity|].
  unfold TextLocator.step, TextLocator.retained.
  destruct (Qgtb (t_score t) TextLocator.threshold); simpl; [|reflexivity].
  destruct (String.eqb_spec (TextLocator.preprocess (t_text t)) k) as [->|Hne].
  - apply get_set_same.
  - now apply get_set_other.
Qed.

Lemma last_write_app k l1 l2 :
  last_write k (l1 ++ l2) =
  match last_write k l2 with
  | Some b => Some b
  | None => last_write k l1
  end.
Proof.
  induction l1 as [|t r IH]; simpl.
  - now destruct (last_write k l2).
  - rewrite IH. now destruct (last_write k l2).
Qed.

Lemma last_write_none k l :
  (forall t, In t l -> TextLocator.retained t = true ->
             TextLocator.preprocess (t_text t) <> k) ->
  last_write k l = None.
Proof.
  induction l as [|t r IH]; simpl; intros H; [reflexivity|].
  rewrite IH by (intros; apply H; auto).
  destruct (TextLocator.retained t) eqn:Hr; simpl; [|reflexivity].
  destruct (String.eqb_spec (TextLocator.preprocess (t_text t)) k) as [He|];
    [|reflexivity].
  exfalso. apply (H t); auto.
Qed.

Lemma keep_only p s c : PyStr.In_str c (PyStr.keep p s) -> p c = true.
Proof.
  induction s as [|c' r IH]; simpl; [intros []|].
  destruct (p c') eqn:Hp; simpl; [|assumption].
  intros [->|H]; auto.
Qed.

Lemma nodup_in_get {V : Type} (d : PyDict.t V) k v :
  NoDup (PyDict.keys d) -> In (k, v) d -> PyDict.get d k = Some v.
Proof.
  induction d as [|[k' v'] r IH]; simpl; intros Hnd Hin; [contradiction|].
  inversion Hnd as [|? ? Hnotin Hr]; subst.
  destruct Hin as [Heq|Hin].
  - inversion Heq; subst. now rewrite String.eqb_refl.
  - destruct (String.eqb_spec k' k) as [->|Hne]; [|auto].
    exfalso. apply Hnotin. unfold PyDict.keys.
    change k with (fst (k, v)). now apply in_map.
Qed.

(** C5 (as amended): the loop of [extract_text] keeps a triple only when
    its score is strictly above 0.25; every key of the result is the text
    of such a triple with the characters that are neither letters nor
    spaces removed, then title-cased, and its box is the triple's box with
    integer coordinates; a triple at or below the threshold leaves the
    mapping as it is.  On [(box, "J0hn", 0.9), (box2, "Sm1th", 0.1)] only
    the first entry survives, under the key "Jhn" (the digit is dropped,
    not read as a letter), and "j0hn SMITH!" cleans to "Jhn Smith". *)
Theorem extract_text_filters_and_cleans :
  (forall text_ k b,
      In (k, b) (TextLocator.collect text_) ->
      exists t, In t text_ /\ (25 # 100) < t_score t /\
        k = PyStr.title
              (PyStr.keep
                 (fun i => PyStr.isalpha i || Ascii.eqb i PyStr.space)
                 (t_text t)) /\
        b = int_bbox (t_bbox t)) /\
  (forall d t, t_score t <= (25 # 100) -> TextLocator.step d t = d) /\
  (forall s c,
      PyStr.In_str c
        (PyStr.keep (fun i => PyStr.isalpha i || Ascii.eqb i PyStr.space) s) ->
      PyStr.isalpha c = true \/ c = PyStr.space) /\
  (forall box1 box2,
      TextLocator.collect
        [Triple box1 "J0hn" (9 # 10); Triple box2 "Sm1th" (1 # 10)]
      = [("Jhn", int_bbox box1)]) /\
  TextLocator.preprocess "j0hn SMITH!" = "Jhn Smith".
Proof.
  split; [|split; [|split; [|split]]].
  - intros text_ k b Hin.
    apply collect_from_in in Hin. destruct Hin as [[]|Hin]. exact Hin.
  - intros d t. apply step_discards.
  - intros s c Hin. apply keep_only in Hin.
    apply orb_true_iff in Hin. destruct Hin as [H|H]; [now left|right].
    apply Ascii.eqb_eq in H. now symmetry.
  - reflexivity.
  - reflexivity.
Qed.

Lemma extract_text_filters_and_cleans_witness :
  exists t,
    In t [Triple Sample.raw_box "J0hn" (9 # 10);
          Triple Sample.other_box "Sm1th" (1 # 10)] /\
    (25 # 100) < t_score t /\
    "Jhn" = PyStr.title
              (PyStr.keep
                 (fun i => PyStr.isalpha i || Ascii.eqb i PyStr.space)
                 (t_text t)) /\
    [(1, 1); (2, 1); (2, 2); (1, 2)]%Z = int_bbox (t_bbox t).
Proof.
  apply (proj1 extract_text_filters_and_cleans
           [Triple Sample.raw_box "J0hn" (9 # 10);
            Triple Sample.other_box "Sm1th" (1 # 10)]
           "Jhn" [(1, 1); (2, 1); (2, 2); (1, 2)]%Z).
  simpl. left. reflexivity.
Defined.

(** C5 as stated fails on its examples: the cleaning removes the digit
    of "J0hn" instead of turning it into a letter, so no key "John" exists
    and "j0hn SMITH!" does not clean to "John Smith". *)
Lemma extract_text_examples_counterexample :
  PyDict.get
    (TextLocator.collect
       [Triple Sample.raw_box "J0hn" (9 # 10);
        Triple Sample.other_box "Sm1th" (1 # 10)])
    "John" = None /\
  PyDict.keys
    (TextLocator.collect
       [Triple Sample.raw_box "J0hn" (9 # 10);
        Triple Sample.other_box "Sm1th" (1 # 10)]) = ["Jhn"] /\
  TextLocator.preprocess "j0hn SMITH!" <> "John Smith".
Proof.
  split; [reflexivity|split; [reflexivity|]].
  vm_compute. discriminate.
Qed.

(** C9: when two retained triples clean to the same text, and no retained
    triple after the later one cleans to it again, the mapping holds the
    box of the later triple under that text, and no other box: the box of
    the earlier triple is gone. *)
Theorem later_triple_overwrites :
  forall pre mid post t1 t2,
    (25 # 100) < t_score t1 ->
    (25 # 100) < t_score t2 ->
    TextLocator.preprocess (t_text t1) = TextLocator.preprocess (t_text t2) ->
    (forall t, In t post -> (25 # 100) < t_score t ->
               TextLocator.preprocess (t_text t)
               <> TextLocator.preprocess (t_text t2)) ->
    let d := TextLocator.collect (pre ++ t1 :: mid ++ t2 :: post) in
    PyDict.get d (TextLocator.preprocess (t_text t2))
      = Some (int_bbox (t_bbox t2)) /\
    (forall b, In (TextLocator.preprocess (t_text t2), b) d ->
               b = int_bbox (t_bbox t2)).
Proof.
  intros pre mid post t1 t2 H1 H2 Heq Hpost d.
  assert (Hget : PyDict.get d (TextLocator.preprocess (t_text t2))
                 = Some (int_bbox (t_bbox t2))).
  { unfold d, TextLocator.collect. rewrite collect_from_get.
    rewrite last_write_app. simpl. rewrite last_write_app. simpl.
    rewrite last_write_none.
    - unfold TextLocator.retained.
      apply Qgtb_true in H2. unfold TextLocator.threshold. rewrite H2.
      now rewrite String.eqb_refl.
    - intros t Hin Hr. apply Hpost; [assumption|].
      now apply Qgtb_true in Hr. }
  split; [exact Hget|].
  intros b Hin.
  assert (Hnd : NoDup (PyDict.keys d)).
  { unfold d, TextLocator.collect. apply collect_from_nodup. constructor. }
  pose proof (nodup_in_get d _ _ Hnd Hin) as Hb.
  rewrite Hget in Hb. now inversion Hb.
Qed.

Lemma later_triple_overwrites_witness :
  let d := TextLocator.collect
             ([] ++ Triple Sample.raw_box "Jane De" (9 # 10)
                 :: [Triple Sample.other_box "Sm1th" (1 # 10)]
                 ++ Triple Sample.other_box "jane d0e." (1 # 2) :: []) in
  PyDict.get d "Jane De" = Some (int_bbox Sample.other_box) /\
  (forall b, In ("Jane De", b) d -> b = int_bbox Sample.other_box).
Proof.
  apply (later_triple_overwrites []
           [Triple Sample.other_box "Sm1th" (1 # 10)] []
           (Triple Sample.raw_box "Jane De" (9 # 10))
           (Triple Sample.other_box "jane d0e." (1 # 2))).
  - reflexivity.
  - reflexivity.
  - reflexivity.
  - intros t [].
Defined.

(* ================================================================== *)
(** * Name Identifier *)

Lemma scan_ents_filter ents : forall results,
  NameIdentifier.scan_ents ents results
  = results ++ map text (filter NameIdentifier.accepted ents).
Proof.
  induction ents as [|e r IH]; simpl; intros results.
  - now rewrite app_nil_r.
  - destruct (NameIdentifier.accepted e); simpl; rewrite IH.
    + now rewrite <- app_assoc.
    + reflexivity.
Qed.

Lemma scan_keys_filter nlp ks : forall results,
  NameIdentifier.scan_keys nlp ks results
  = results ++ map text (filter NameIdentifier.accepted (all_ents nlp ks)).
Proof.
  unfold all_ents.
  induction ks as [|k r IH]; simpl; intros results.
  - now rewrite app_nil_r.
  - rewrite IH, scan_ents_filter, filter_app, map_app.
    now rewrite app_assoc.
Qed.

Lemma ner_filter nlp d :
  NameIdentifier.ner nlp d
  = map text
      (filter NameIdentifier.accepted (all_ents nlp (PyDict.keys d))).
Proof.
  unfold NameIdentifier.ner. now rewrite scan_keys_filter.
Qed.

Lemma accepted_spec e :
  NameIdentifier.accepted e = true <->
  label_ e = "PERSON" /\
  List.length (PyStr.split PyStr.space (text e)) = 2%nat.
Proof.
  unfold NameIdentifier.accepted.
  now rewrite andb_true_iff, String.eqb_eq, Nat.eqb_eq.
Qed.

Lemma ner_in nlp d x :
  In x (NameIdentifier.ner nlp d) <->
  exists k e, In k (PyDict.keys d) /\ In e (nlp k) /\
    label_ e = "PERSON" /\
    List.length (PyStr.split PyStr.space (text e)) = 2%nat /\
    text e = x.
Proof.
  rewrite ner_filter, in_map_iff. unfold all_ents. split.
  - intros (e & Hx & Hin). apply filter_In in Hin. destruct Hin as [Hin Ha].
    apply in_flat_map in Hin. destruct Hin as (k & Hk & He).
    apply accepted_spec in Ha. destruct Ha. exists k, e. auto.
  - intros (k & e & Hk & He & Hl & Hs & Hx).
    exists e. split; [assumption|]. apply filter_In. split.
    + apply in_flat_map. eauto.
    + apply accepted_spec. auto.
Qed.

(** C7: [ner] returns, in the order of the keys and of the entities
    within a key, exactly the texts of the recognized entities that are
    labeled PERSON and whose text splits on spaces into exactly two
    tokens.  When the entities found are "John", "John Smith" and
    "John Michael Smith", all PERSON, only "John Smith" is returned. *)
Theorem ner_keeps_two_token_persons :
  forall nlp (d : PyDict.t bbox),
    NameIdentifier.ner nlp d
    = map text
        (filter
           (fun e => String.eqb (label_ e) "PERSON"
                     && (List.length (PyStr.split " " (text e)) =? 2)%nat)
           (flat_map nlp (PyDict.keys d))) /\
    (forall x,
        In x (NameIdentifier.ner nlp d) <->
        exists k e, In k (PyDict.keys d) /\ In e (nlp k) /\
          label_ e = "PERSON" /\
          List.length (PyStr.split " " (text e)) = 2%nat /\
          text e = x) /\
    (flat_map nlp (PyDict.keys d)
     = [Ent "PERSON" "John"; Ent "PERSON" "John Smith";
        Ent "PERSON" "John Michael Smith"] ->
     NameIdentifier.ner nlp d = ["John Smith"]).
Proof.
  intros nlp d. split; [|split].
  - apply ner_filter.
  - intros x. apply ner_in.
  - intros H. rewrite ner_filter. unfold all_ents. rewrite H. reflexivity.
Qed.

Lemma ner_keeps_two_token_persons_witness :
  NameIdentifier.ner (fun s => [Ent "PERSON" s])
    [("John", Sample.jane_box); ("John Smith", Sample.jane_box);
     ("John Michael Smith", Sample.jane_box)]
  = ["John Smith"].
Proof.
  apply (proj2 (proj2 (ner_keeps_two_token_persons
                         (fun s => [Ent "PERSON" s])
                         [("John", Sample.jane_box);
                          ("John Smith", Sample.jane_box);
                          ("John Michael Smith", Sample.jane_box)]))).
  reflexivity.
Defined.

(* ================================================================== *)
(** * Extraction Orchestrator *)

Lemma split_two_tokens s :
  List.length (PyStr.split PyStr.space s) = 2%nat ->
  exists a b, PyStr.split PyStr.space s = [a; b].
Proof.
  destruct (PyStr.split PyStr.space s) as [|a [|b [|c r]]]; simpl;
    try discriminate.
  intros _. eauto.
Qed.

Lemma ner_head_two_tokens nlp d top rest :
  NameIdentifier.ner nlp d = top :: rest ->
  exists a b, PyStr.split PyStr.space top = [a; b].
Proof.
  intros H.
  assert (Hin : In top (NameIdentifier.ner nlp d)) by (rewrite H; now left).
  apply ner_in in Hin. destruct Hin as (k & e & _ & _ & _ & Hs & <-).
  now apply split_two_tokens.
Qed.

Lemma text_extraction_and_landmarking_run E self image_path w :
  Extractor.text_extraction_and_landmarking E self image_path w
  = match Extractor.extract_text E self image_path w with
    | (inr text_and_boxes, w') =>
        (Orchestrator.landmarking (nlp E) text_and_boxes, w')
    | (inl e, w') => (inl e, w')
    end.
Proof.
  unfold Extractor.text_extraction_and_landmarking, Run.bind, Run.lift.
  now destruct (Extractor.extract_text E self image_path w) as [[e|d] w'].
Qed.

(** C1 (as amended): when [ner] finds no candidate in the fragment
    mapping, the orchestrator fails: it returns no result and raises the
    index-out-of-range fault of [ner_results[0]].  So does
    [text_extraction_and_landmarking] on an image whose fragment mapping
    has no candidate. *)
Theorem no_candidate_raises_index_error :
  forall E (text_and_boxes : PyDict.t bbox),
    NameIdentifier.ner (nlp E) text_and_boxes = [] ->
    Orchestrator.landmarking (nlp E) text_and_boxes = inl IndexError /\
    (forall self image_path w w',
        Extractor.extract_text E self image_path w
        = (inr text_and_boxes, w') ->
        Extractor.text_extraction_and_landmarking E self image_path w
        = (inl IndexError, w')).
Proof.
  intros E d H.
  assert (Hl : Orchestrator.landmarking (nlp E) d = inl IndexError).
  { unfold Orchestrator.landmarking. now rewrite H. }
  split; [exact Hl|].
  intros self image_path w w' Hx.
  now rewrite text_extraction_and_landmarking_run, Hx, Hl.
Qed.

Lemma no_candidate_raises_index_error_witness :
  Orchestrator.landmarking (nlp Sample.blind_caps)
    [("Republic", Sample.jane_box)]
  = inl IndexError.
Proof.
  apply (proj1 (no_candidate_raises_index_error
                  Sample.blind_caps [("Republic", Sample.jane_box)]
                  eq_refl)).
Defined.

(** C1 as stated fails: on an image whose fragments hold no candidate
    the fault raised is the index-out-of-range one. *)
Lemma no_candidate_counterexample :
  NameIdentifier.ner Sample.blind_nlp [("Republic", Sample.jane_box)] = [] /\
  Orchestrator.landmarking Sample.blind_nlp [("Republic", Sample.jane_box)]
  = inl IndexError /\
  fst (Extractor.text_extraction_and_landmarking
         Sample.blind_caps Sample.two_folders "id.png"
         (Sample.disk "raw/" Sample.level_file))
  = inl IndexError.
Proof. repeat split; reflexivity. Qed.

(** C2 fails on the code: a candidate is the text of an entity, which is
    a span of a key and need not be a key.  For the fragment
    "Name John Smith" the candidate is "John Smith", no key of the
    mapping, and the box lookup raises [KeyError]. *)
Theorem top_candidate_not_a_key :
  let text_and_boxes := [("Name John Smith", Sample.jane_box)] in
  NameIdentifier.ner Sample.span_nlp text_and_boxes = ["John Smith"] /\
  ~ In "John Smith" (PyDict.keys text_and_boxes) /\
  Orchestrator.landmarking Sample.span_nlp text_and_boxes = inl KeyError.
Proof.
  simpl. split; [reflexivity|split; [|reflexivity]].
  intros [H|[]]. discriminate.
Qed.

(** C6: when the first candidate of the mapping has a box, the
    orchestrator returns the candidate as full name, its first and second
    tokens of the split on the space as first and last name, and that box.
    So a mapping whose only candidate is "Jane Doe" with box
    [[1,1],[2,1],[2,2],[1,2]] gives full_name "Jane Doe", first_name
    "Jane", last_name "Doe" and that box. *)
Theorem landmarking_of_top_candidate :
  forall nlp (text_and_boxes : PyDict.t bbox) top rest b,
    NameIdentifier.ner nlp text_and_boxes = top :: rest ->
    PyDict.get text_and_boxes top = Some b ->
    (exists first last,
        PyStr.split " " top = [first; last] /\
        Orchestrator.landmarking nlp text_and_boxes
        = inr (Result top first last b)) /\
    (top = "Jane Doe" -> rest = [] ->
     b = [(1, 1); (2, 1); (2, 2); (1, 2)]%Z ->
     Orchestrator.landmarking nlp text_and_boxes
     = inr (Result "Jane Doe" "Jane" "Doe"
              [(1, 1); (2, 1); (2, 2); (1, 2)]%Z)).
Proof.
  intros nlp d top rest b Hner Hget.
  assert (Hgen : forall first last,
             PyStr.split PyStr.space top = [first; last] ->
             Orchestrator.landmarking nlp d = inr (Result top first last b)).
  { intros first last Hs. unfold Orchestrator.landmarking.
    rewrite Hner. simpl. rewrite Hs. simpl.
    unfold Orchestrator.lookup. now rewrite Hget. }
  split.
  - destruct (ner_head_two_tokens _ _ _ _ Hner) as (a & c & Hs).
    exists a, c. split; [exact Hs | now apply Hgen].
  - intros -> _ ->. now apply Hgen.
Qed.

Lemma landmarking_of_top_candidate_witness :
  Orchestrator.landmarking Sample.span_nlp [("Jane Doe", Sample.jane_box)]
  = inr (Result "Jane Doe" "Jane" "Doe" [(1, 1); (2, 1); (2, 2); (1, 2)]%Z).
Proof.
  apply (proj2 (landmarking_of_top_candidate
                  Sample.span_nlp [("Jane Doe", Sample.jane_box)]
                  "Jane Doe" [] Sample.jane_box eq_refl eq_refl));
    reflexivity.
Defined.

(* ================================================================== *)
(** * Skew angle *)

Lemma Qltb_true x y : SkewAngle.Qltb x y = true <-> x < y.
Proof. unfold SkewAngle.Qltb. apply (Qgtb_true y x). Qed.

Lemma Qltb_false x y : SkewAngle.Qltb x y = false <-> y <= x.
Proof. unfold SkewAngle.Qltb. apply (Qgtb_false y x). Qed.

Lemma normalize_below a :
  a < (-45 # 1) -> SkewAngle.normalize a = - ((90 # 1) + a).
Proof.
  intros H. unfold SkewAngle.normalize.
  apply Qltb_true in H. now rewrite H.
Qed.

Lemma normalize_above a :
  (-45 # 1) <= a -> SkewAngle.normalize a = - a.
Proof.
  intros H. unfold SkewAngle.normalize.
  apply Qltb_false in H. now rewrite H.
Qed.

Lemma normalize_range a :
  in_half_turn (SkewAngle.normalize a) <-> (-135 # 1) <= a /\ a < (45 # 1).
Proof.
  unfold in_half_turn.
  destruct (Qlt_le_dec a (-45 # 1)) as [Hlt|Hge].
  - rewrite (normalize_below a Hlt). split; intros [H1 H2]; split; lra.
  - rewrite (normalize_above a Hge). split; intros [H1 H2]; split; lra.
Qed.

(** C3 (as amended): [get_angle] returns [-(90 + angle)] when the raw
    rectangle angle is below -45 degrees and [-angle] otherwise.  The
    result lies in (-45, 45] exactly when the raw angle lies in
    [-135, 45), hence for every raw angle between -90 and 0; a raw angle
    of -60 degrees normalizes to -30 degrees, on the rationals and on
    binary64 numbers alike. *)
Theorem get_angle_folds :
  forall angle : Q,
    (angle < (-45 # 1) ->
     SkewAngle.normalize angle = - ((90 # 1) + angle)) /\
    (~ angle < (-45 # 1) -> SkewAngle.normalize angle = - angle) /\
    (in_half_turn (SkewAngle.normalize angle) <->
     (-135 # 1) <= angle /\ angle < (45 # 1)) /\
    ((-90 # 1) <= angle /\ angle <= 0 ->
     in_half_turn (SkewAngle.normalize angle)) /\
    SkewAngle.normalize (-60 # 1) == (-30 # 1) /\
    SkewAngle.normalize_float (-60)%float = (-30)%float /\
    (forall E img,
        rect_angle E (gray_inverted E img) = angle ->
        Extractor.get_angle E (Some img)
        = inr (SkewAngle.normalize angle)).
Proof.
  intros a. split; [|split; [|split; [|split; [|split; [|split]]]]].
  - apply normalize_below.
  - intros H. apply normalize_above. now apply Qnot_lt_le.
  - apply normalize_range.
  - intros [H1 H2]. apply normalize_range. split; lra.
  - reflexivity.
  - vm_compute. reflexivity.
  - intros E img <-. reflexivity.
Qed.

Lemma get_angle_folds_witness :
  in_half_turn (SkewAngle.normalize (-90 # 1)) /\
  SkewAngle.normalize (-60 # 1) = - ((90 # 1) + (-60 # 1)) /\
  Extractor.get_angle Sample.caps (Some [Byte.x01])
  = inr (SkewAngle.normalize (-60 # 1)).
Proof.
  split; [|split].
  - apply (proj1 (proj2 (proj2 (proj2 (get_angle_folds (-90 # 1)))))).
    split; [apply Qle_refl | discriminate].
  - apply (proj1 (get_angle_folds (-60 # 1))). reflexivity.
  - apply (proj2 (proj2 (proj2 (proj2 (proj2 (proj2
             (get_angle_folds (-60 # 1)))))))).
    reflexivity.
Defined.

(** C3 as stated fails twice: -60 degrees normalizes to -30, not 30, and
    a raw angle of 60 degrees normalizes to -60, outside (-45, 45]. *)
Lemma get_angle_counterexample :
  ~ SkewAngle.normalize (-60 # 1) == (30 # 1) /\
  SkewAngle.normalize_float (-60)%float <> 30%float /\
  ~ in_half_turn (SkewAngle.normalize (60 # 1)) /\
  PrimFloat.leb (SkewAngle.normalize_float 60%float) (-45)%float = true.
Proof.
  split; [|split; [|split]].
  - vm_compute. discriminate.
  - intros H.
    apply (f_equal (fun x => PrimFloat.ltb x 0%float)) in H.
    vm_compute in H. discriminate.
  - intros [H _]. vm_compute in H. discriminate.
  - vm_compute. reflexivity.
Qed.

(* ================================================================== *)
(** * Similarity Scorer *)

Lemma distance_cons x a y b :
  Fuzz.distance (String x a) (String y b)
  = Nat.min
      (Nat.min (1 + Fuzz.distance a (String y b))
               (1 + Fuzz.distance (String x a) b))
      ((if Ascii.eqb x y then 0 else 2) + Fuzz.distance a b).
Proof. reflexivity. Qed.

Lemma distance_le a : forall b,
  (Fuzz.distance a b <= String.length a + String.length b)%nat.
Proof.
  induction a as [|x a IHa]; intros b.
  - simpl. lia.
  - induction b as [|y b IHb].
    + simpl. lia.
    + rewrite distance_cons. specialize (IHa b). simpl String.length.
      destruct (Ascii.eqb x y); lia.
Qed.

Lemma distance_same s : Fuzz.distance s s = 0%nat.
Proof.
  induction s as [|x s IH]; [reflexivity|].
  rewrite distance_cons, Ascii.eqb_refl, IH. apply Nat.min_0_r.
Qed.

Lemma round_div_bounds n d :
  (0 < d -> 0 <= n <= 100 * d -> 0 <= Fuzz.round_div n d <= 100)%Z.
Proof.
  intros Hd Hn. unfold Fuzz.round_div.
  pose proof (Z.div_mod n d ltac:(lia)) as Hdm.
  pose proof (Z.mod_pos_bound n d Hd) as Hr.
  assert (Hq0 : (0 <= n / d)%Z) by (apply Z.div_pos; lia).
  assert (Hq1 : (n / d <= 100)%Z).
  { apply Z.div_le_upper_bound; lia. }
  assert (Hfull : (n / d = 100 -> n mod d = 0)%Z) by nia.
  destruct (2 * (n mod d) <? d)%Z eqn:H1; [lia|].
  apply Z.ltb_ge in H1.
  assert (n / d <> 100)%Z by (intros H; apply Hfull in H; lia).
  destruct (d <? 2 * (n mod d))%Z; [lia|].
  destruct (Z.even (n / d)); lia.
Qed.

Lemma round_div_exact q d : (0 < d -> Fuzz.round_div (q * d) d = q)%Z.
Proof.
  intros Hd. unfold Fuzz.round_div.
  rewrite Z.div_mul, Z.mod_mul by lia.
  destruct (2 * 0 <? d)%Z eqn:H; [reflexivity|].
  apply Z.ltb_ge in H. lia.
Qed.

(** C4: the score is defined for every pair of strings, the empty ones
    included, and is an integer between 0 and 100; a string scores 100
    against itself; "Jane Doe" against "John Doe" scores strictly between
    0 and 100. *)
Theorem similarity_score_in_range :
  forall s1 s2 : string,
    (exists n : Z, get_similarity_score s1 s2 = n /\ (0 <= n <= 100)%Z) /\
    get_similarity_score s1 s1 = 100%Z /\
    get_similarity_score "" "" = 100%Z /\
    get_similarity_score "Jane Doe" "Jane Doe" = 100%Z /\
    (0 < get_similarity_score "Jane Doe" "John Doe" < 100)%Z.
Proof.
  intros s1 s2. split; [|split; [|split; [|split]]].
  - eexists. split; [reflexivity|].
    unfold get_similarity_score, Fuzz.ratio.
    destruct (Z.eqb_spec
                (Z.of_nat (String.length s1 + String.length s2)) 0);
      [lia|].
    pose proof (distance_le s1 s2).
    apply round_div_bounds; lia.
  - unfold get_similarity_score, Fuzz.ratio.
    destruct (Z.eqb_spec
                (Z.of_nat (String.length s1 + String.length s1)) 0);
      [reflexivity|].
    rewrite distance_same. simpl Z.of_nat at 2. rewrite Z.sub_0_r.
    apply round_div_exact. lia.
  - reflexivity.
  - reflexivity.
  - vm_compute. split; reflexivity.
Qed.

(* ================================================================== *)
(** * Skew correction and extraction on the file store *)

Lemma length_append (a b : string) :
  String.length (a ++ b)%string = (String.length a + String.length b)%nat.
Proof. induction a as [|c a IH]; simpl; [reflexivity | now rewrite IH]. Qed.

Lemma append_cancel_r (a b p : string) :
  (a ++ p)%string = (b ++ p)%string -> a = b.
Proof.
  revert b. induction a as [|x a IH]; intros [|y b] H; simpl in H.
  - reflexivity.
  - exfalso. apply (f_equal String.length) in H. simpl in H.
    rewrite length_append in H. lia.
  - exfalso. apply (f_equal String.length) in H. simpl in H.
    rewrite length_append in H. lia.
  - inversion H; subst. f_equal. now apply IH.
Qed.

Section RunFacts.

Variable E : Capabilities.
Variable self : TextFromImageExtractor.
Variable image_path : string.

Local Abbreviation raw_file :=
  (resolve E (raw_data_folder self ++ image_path)%string) (only parsing).
Local Abbreviation process_path :=
  ((processed_data_folder self ++ image_path)%string) (only parsing).
Local Abbreviation process_file :=
  (resolve E (processed_data_folder self ++ image_path)%string) (only parsing).

Lemma correct_skew_run w b arr img :
  files w raw_file = Some b ->
  imread E b = Some arr ->
  pil_open E b = inr img ->
  Extractor.correct_skew E self image_path w
  = match save E process_path (deskewed E arr img) with
    | inr content =>
        (inr tt,
         World (Run.put (files w) process_file (Some content))
               (trace w ++ [ReadFile raw_file; ReadFile raw_file;
                            WriteFile process_file]))
    | inl e =>
        (inl e,
         World (Run.put (files w) process_file
                  (save_residue E process_path (deskewed E arr img)
                     (files w process_file)))
               (trace w ++ [ReadFile raw_file; ReadFile raw_file;
                            FailedWrite process_file]))
    end.
Proof.
  intros Hf Hd Hp.
  unfold Extractor.correct_skew, Extractor.cv2_imread, Extractor.image_open,
    Extractor.image_save, Extractor.get_angle, Extractor.to_gray_inverted,
    Run.bind, Run.read_file, Run.ret, Run.lift, Run.write_file.
  simpl. rewrite Hf, Hd. simpl. rewrite Hp. simpl.
  unfold deskewed.
  destruct (save E process_path _); rewrite <- !app_assoc; reflexivity.
Qed.

Lemma correct_skew_unreadable w :
  match files w raw_file with
  | Some b => imread E b = None
  | None => True
  end ->
  Extractor.correct_skew E self image_path w
  = (inl Cv2Error, World (files w) (trace w ++ [ReadFile raw_file])).
Proof.
  intros H.
  unfold Extractor.correct_skew, Extractor.cv2_imread, Extractor.image_open,
    Extractor.get_angle, Extractor.to_gray_inverted,
    Run.bind, Run.read_file, Run.ret, Run.lift.
  simpl.
  destruct (files w raw_file) as [b|]; [rewrite H|]; reflexivity.
Qed.

Lemma correct_skew_unopened w b arr e :
  files w raw_file = Some b ->
  imread E b = Some arr ->
  pil_open E b = inl e ->
  Extractor.correct_skew E self image_path w
  = (inl e, World (files w)
              (trace w ++ [ReadFile raw_file; ReadFile raw_file])).
Proof.
  intros Hf Hd Hp.
  unfold Extractor.correct_skew, Extractor.cv2_imread, Extractor.image_open,
    Extractor.get_angle, Extractor.to_gray_inverted,
    Run.bind, Run.read_file, Run.ret, Run.lift.
  simpl. rewrite Hf, Hd. simpl. rewrite Hp. simpl.
  rewrite <- !app_assoc. reflexivity.
Qed.

Lemma put_other fs file content f :
  f <> file -> Run.put fs file content f = fs f.
Proof.
  intros H. unfold Run.put.
  destruct (String.eqb_spec f file); [contradiction | reflexivity].
Qed.

Lemma put_same fs file content : Run.put fs file content file = content.
Proof. unfold Run.put. now rewrite String.eqb_refl. Qed.

(** Whatever its outcome, [correct_skew] touches the processed file
    only. *)
Lemma correct_skew_frame w f :
  f <> process_file ->
  files (snd (Extractor.correct_skew E self image_path w)) f = files w f.
Proof.
  intros Hf.
  destruct (files w raw_file) as [b|] eqn:Hraw.
  - destruct (imread E b) as [arr|] eqn:Hd.
    + destruct (pil_open E b) as [e|img] eqn:Hp.
      * now rewrite (correct_skew_unopened w b arr e Hraw Hd Hp).
      * rewrite (correct_skew_run w b arr img Hraw Hd Hp).
        destruct (save E process_path (deskewed E arr img)); simpl;
          now apply put_other.
    + rewrite correct_skew_unreadable; [reflexivity | now rewrite Hraw].
  - rewrite correct_skew_unreadable; [reflexivity | now rewrite Hraw].
Qed.

(** A failure of [correct_skew] is the outcome of [extract_text]. *)
Lemma extract_text_skew_fails w e :
  fst (Extractor.correct_skew E self image_path w) = inl e ->
  Extractor.extract_text E self image_path w
  = (inl e, snd (Extractor.correct_skew E self image_path w)).
Proof.
  intros H. unfold Extractor.extract_text. unfold Run.bind at 1.
  destruct (Extractor.correct_skew E self image_path w) as [[e'|u] w'].
  - simpl in H. now inversion H.
  - discriminate.
Qed.

Lemma extract_text_run w b arr img content :
  files w raw_file = Some b ->
  imread E b = Some arr ->
  pil_open E b = inr img ->
  save E process_path (deskewed E arr img) = inr content ->
  Extractor.extract_text E self image_path w
  = let fs1 := Run.put (files w) process_file (Some content) in
    let t1 := trace w ++ [ReadFile raw_file; ReadFile raw_file;
                          WriteFile process_file; ReadFile process_file] in
    match imread E content with
    | None => (inl Cv2Error, World fs1 t1)
    | Some image =>
        match new_reader E fs1 with
        | (inl e, fs2) => (inl e, World fs2 (t1 ++ [LoadReader]))
        | (inr _, fs2) =>
            (inr (TextLocator.collect (readtext E (gray_inverted E image))),
             World fs2 (t1 ++ [LoadReader; RunOcr]))
        end
    end.
Proof.
  intros Hf Hd Hp Hs.
  unfold Extractor.extract_text. unfold Run.bind at 1.
  rewrite (correct_skew_run w b arr img Hf Hd Hp), Hs.
  unfold Extractor.cv2_imread, Extractor.to_gray_inverted,
    Extractor.make_reader, Run.bind, Run.read_file, Run.ret, Run.lift,
    Run.emit.
  simpl. rewrite put_same.
  destruct (imread E content) as [image|]; simpl.
  - destruct (new_reader E _) as [[e|u] fs2]; simpl;
      rewrite <- !app_assoc; reflexivity.
  - rewrite <- !app_assoc. reflexivity.
Qed.

End RunFacts.

(** C8 (as amended): when the raw image can be read, [correct_skew]
    saves it to the processed location through the image encoder.  If the
    computed angle is exactly 0 the image saved is the decoded raw image,
    not rotated: when the save succeeds the processed file holds the bytes
    the encoder wrote, which are the bytes of the raw file only if the
    encoder gives those back; when the save raises, [correct_skew] raises
    the same exception.  For any other angle the image saved is the
    decoded raw image rotated by that angle, in the same way. *)
Theorem correct_skew_writes_processed :
  forall E self image_path w b arr img,
    files w (resolve E (raw_data_folder self ++ image_path)%string) = Some b ->
    imread E b = Some arr ->
    pil_open E b = inr img ->
    let angle := SkewAngle.normalize (rect_angle E (gray_inverted E arr)) in
    let out := Extractor.correct_skew E self image_path w in
    let process_path := (processed_data_folder self ++ image_path)%string in
    let process_file := resolve E process_path in
    (angle == 0 ->
     (forall content,
         save E process_path img = inr content ->
         fst out = inr tt /\ files (snd out) process_file = Some content) /\
     (save E process_path img = inr b ->
      files (snd out) process_file = Some b) /\
     (forall e, save E process_path img = inl e -> fst out = inl e)) /\
    (~ angle == 0 ->
     (forall content,
         save E process_path (rotate E angle img) = inr content ->
         fst out = inr tt /\ files (snd out) process_file = Some content) /\
     (forall e,
         save E process_path (rotate E angle img) = inl e ->
         fst out = inl e)).
Proof.
  intros E self image_path w b arr img Hf Hd Hp angle out
         process_path process_file.
  unfold out. rewrite (correct_skew_run E self image_path w b arr img Hf Hd Hp).
  fold process_path. unfold deskewed. fold angle. split.
  - intros H. apply Qeq_bool_iff in H. rewrite H. simpl.
    split; [|split].
    + intros content Hs. rewrite Hs. simpl. split; [reflexivity|].
      apply put_same.
    + intros Hs. rewrite Hs. simpl. apply put_same.
    + intros e Hs. now rewrite Hs.
  - intros H. destruct (Qeq_bool angle 0) eqn:Hb.
    + apply Qeq_bool_iff in Hb. contradiction.
    + simpl. split.
      * intros content Hs. rewrite Hs. simpl. split; [reflexivity|].
        apply put_same.
      * intros e Hs. now rewrite Hs.
Qed.

Lemma correct_skew_writes_processed_witness :
  (fst (Extractor.correct_skew Sample.caps Sample.two_folders "id.png"
          (Sample.disk "raw/" Sample.skewed_file)) = inr tt /\
   files (snd (Extractor.correct_skew Sample.caps Sample.two_folders "id.png"
                 (Sample.disk "raw/" Sample.skewed_file)))
         "processed/id.png"
   = Some [Byte.x00; Byte.x02; Byte.x01]) /\
  fst (Extractor.correct_skew Sample.caps Sample.two_folders "id.exe"
         (Sample.disk_at "raw/id.exe" Sample.level_file))
  = inl ValueError.
Proof.
  split.
  - apply (proj1 (proj2 (correct_skew_writes_processed
                           Sample.caps Sample.two_folders "id.png"
                           (Sample.disk "raw/" Sample.skewed_file)
                           Sample.skewed_file
                           [Byte.x01; Byte.x02] [Byte.x01; Byte.x02]
                           eq_refl eq_refl eq_refl)
                  ltac:(vm_compute; discriminate))).
    reflexivity.
  - apply (proj2 (proj2 (proj1 (correct_skew_writes_processed
                                  Sample.caps Sample.two_folders "id.exe"
                                  (Sample.disk_at "raw/id.exe"
                                     Sample.level_file)
                                  Sample.level_file
                                  [Byte.x02; Byte.x03] [Byte.x02; Byte.x03]
                                  eq_refl eq_refl eq_refl)
                         ltac:(reflexivity)))).
    reflexivity.
Defined.

(** C8 as stated fails: for an image whose computed angle is 0 the
    processed file is the image encoded anew, and its bytes differ from
    the raw file's when the raw file was not written by the same
    encoder; and an image with a non-zero angle is not written to the
    processed location when the encoder refuses the file name. *)
Lemma correct_skew_counterexample :
  (let w := Sample.disk "raw/" Sample.level_file in
   let out := Extractor.correct_skew Sample.caps Sample.two_folders
                "id.png" w in
   Extractor.get_angle Sample.caps (imread Sample.caps Sample.level_file)
   = inr (0 # 1) /\
   fst out = inr tt /\
   files (snd out) "processed/id.png" <> files w "raw/id.png") /\
  (let w := Sample.disk_at "raw/id.exe" Sample.skewed_file in
   let out := Extractor.correct_skew Sample.caps Sample.two_folders
                "id.exe" w in
   Extractor.get_angle Sample.caps (imread Sample.caps Sample.skewed_file)
   = inr (-30 # 1) /\
   fst out = inl ValueError /\
   files (snd out) "processed/id.exe" = None).
Proof.
  split; simpl.
  - split; [reflexivity|split; [reflexivity|]].
    vm_compute. discriminate.
  - split; [reflexivity|split; reflexivity].
Qed.




(* ================================================================== *)
(** * Cleaning of recognized text *)

Ltac by_cases_on_ascii c :=
  destruct c as [[] [] [] [] [] [] [] []]; reflexivity.

Lemma isalpha_upper c : PyStr.isalpha (PyStr.upper c) = PyStr.isalpha c.
Proof. by_cases_on_ascii c. Qed.

Lemma isalpha_lower c : PyStr.isalpha (PyStr.lower c) = PyStr.isalpha c.
Proof. by_cases_on_ascii c. Qed.

Lemma upper_upper c : PyStr.upper (PyStr.upper c) = PyStr.upper c.
Proof. by_cases_on_ascii c. Qed.

Lemma lower_lower c : PyStr.lower (PyStr.lower c) = PyStr.lower c.
Proof. by_cases_on_ascii c. Qed.

Lemma upper_lower c : PyStr.upper (PyStr.lower c) = PyStr.upper c.
Proof. by_cases_on_ascii c. Qed.

Lemma space_upper c :
  Ascii.eqb (PyStr.upper c) PyStr.space = Ascii.eqb c PyStr.space.
Proof. by_cases_on_ascii c. Qed.

Lemma space_lower c :
  Ascii.eqb (PyStr.lower c) PyStr.space = Ascii.eqb c PyStr.space.
Proof. by_cases_on_ascii c. Qed.

Lemma title_from_twice s : forall b,
  PyStr.title_from b (PyStr.title_from b s) = PyStr.title_from b s.
Proof.
  induction s as [|c r IH]; intros b; simpl; [reflexivity|].
  destruct b.
  - now rewrite lower_lower, isalpha_lower, IH.
  - now rewrite upper_upper, isalpha_upper, IH.
Qed.

Lemma keep_title_from p s :
  (forall c, p (PyStr.upper c) = p c) ->
  (forall c, p (PyStr.lower c) = p c) ->
  (forall c, PyStr.In_str c s -> p c = true) ->
  forall b, PyStr.keep p (PyStr.title_from b s) = PyStr.title_from b s.
Proof.
  intros Hu Hl. induction s as [|c r IH]; intros Hall b; simpl;
    [reflexivity|].
  assert (Hc : p c = true) by (apply Hall; simpl; auto).
  assert (Hr : forall c0, PyStr.In_str c0 r -> p c0 = true)
    by (intros; apply Hall; simpl; auto).
  destruct b.
  - rewrite Hl, Hc. now rewrite IH.
  - rewrite Hu, Hc. now rewrite IH.
Qed.

Lemma kept_upper c :
  PyStr.isalpha (PyStr.upper c) || Ascii.eqb (PyStr.upper c) PyStr.space
  = PyStr.isalpha c || Ascii.eqb c PyStr.space.
Proof. now rewrite isalpha_upper, space_upper. Qed.

Lemma kept_lower c :
  PyStr.isalpha (PyStr.lower c) || Ascii.eqb (PyStr.lower c) PyStr.space
  = PyStr.isalpha c || Ascii.eqb c PyStr.space.
Proof. now rewrite isalpha_lower, space_lower. Qed.

Lemma preprocess_fixed s :
  TextLocator.preprocess (TextLocator.preprocess s) = TextLocator.preprocess s.
Proof.
  unfold TextLocator.preprocess, PyStr.title.
  rewrite (keep_title_from _ _ kept_upper kept_lower).
  - apply title_from_twice.
  - intros c. apply keep_only.
Qed.

Lemma in_title_from c s : forall b,
  PyStr.In_str c (PyStr.title_from b s) ->
  exists c0, PyStr.In_str c0 s /\ (c = PyStr.lower c0 \/ c = PyStr.upper c0).
Proof.
  induction s as [|x r IH]; intros b; simpl; [intros []|].
  intros [H|H].
  - exists x. split; [now left|]. destruct b; auto.
  - destruct (IH _ H) as (c0 & Hin & Hc). exists c0. auto.
Qed.

Lemma preprocess_letters_and_spaces s :
  letters_and_spaces (TextLocator.preprocess s).
Proof.
  intros c Hin. unfold TextLocator.preprocess, PyStr.title in Hin.
  apply in_title_from in Hin. destruct Hin as (c0 & Hin & Hc).
  apply keep_only in Hin.
  assert (Hk : PyStr.isalpha c || Ascii.eqb c PyStr.space = true).
  { destruct Hc as [->| ->]; [rewrite kept_lower | rewrite kept_upper];
      exact Hin. }
  apply orb_true_iff in Hk. destruct Hk as [Hk|Hk]; [now left|right].
  apply Ascii.eqb_eq in Hk. exact Hk.
Qed.

(** X1: cleaning is idempotent: a text that has been cleaned is left as
    it is by a second cleaning. *)
Theorem preprocess_idempotent : forall s,
  TextLocator.preprocess (TextLocator.preprocess s) = TextLocator.preprocess s.
Proof. exact preprocess_fixed. Qed.

(** X2: every key of the mapping built by [extract_text] consists of
    letters and spaces only and is a fixed point of the cleaning. *)
Theorem keys_are_clean : forall text_ k,
  In k (PyDict.keys (TextLocator.collect text_)) ->
  letters_and_spaces k /\ TextLocator.preprocess k = k.
Proof.
  intros l k Hin. unfold PyDict.keys in Hin.
  apply in_map_iff in Hin. destruct Hin as ([k' b] & Hk & Hin).
  simpl in Hk. subst k'.
  apply collect_from_in in Hin. destruct Hin as [[]|(t & _ & _ & -> & _)].
  split; [apply preprocess_letters_and_spaces | apply preprocess_fixed].
Qed.

Lemma keys_are_clean_witness :
  letters_and_spaces "Jhn" /\ TextLocator.preprocess "Jhn" = "Jhn".
Proof.
  apply (keys_are_clean
           [Triple Sample.raw_box "J0hn" (9 # 10);
            Triple Sample.other_box "Sm1th" (1 # 10)] "Jhn").
  simpl. left. reflexivity.
Defined.

(* ================================================================== *)
(** * Shape of the fragment mapping *)

Lemma last_write_some k t l :
  In t l -> TextLocator.retained t = true ->
  TextLocator.preprocess (t_text t) = k ->
  exists b, last_write k l = Some b.
Proof.
  intros Hin Hr Hk. induction l as [|t' r IH]; [destruct Hin|].
  simpl. destruct Hin as [->|Hin].
  - destruct (last_write k r); [eauto|].
    rewrite Hr, Hk, String.eqb_refl. simpl. eauto.
  - destruct (IH Hin) as (b & ->). eauto.
Qed.

(** X3: the keys of the mapping are exactly the cleaned texts of the
    triples whose score is above 0.25: no such triple is left without a
    key, and nothing else becomes a key. *)
Theorem keys_are_retained_texts : forall text_ k,
  In k (PyDict.keys (TextLocator.collect text_)) <->
  exists t, In t text_ /\ (25 # 100) < t_score t /\
            k = TextLocator.preprocess (t_text t).
Proof.
  intros l k. split.
  - intros Hin. unfold PyDict.keys in Hin.
    apply in_map_iff in Hin. destruct Hin as ([k' b] & Hk & Hin).
    simpl in Hk. subst k'.
    apply collect_from_in in Hin.
    destruct Hin as [[]|(t & Ht & Hs & Hk & _)]. eauto.
  - intros (t & Ht & Hs & ->).
    apply Qgtb_true in Hs.
    destruct (last_write_some _ t l Ht Hs eq_refl) as (b & Hb).
    apply (get_some_in_keys _ _ b).
    unfold TextLocator.collect. now rewrite collect_from_get, Hb.
Qed.

Lemma set_length {V : Type} (d : PyDict.t V) k v :
  (List.length (PyDict.set d k v) <= S (List.length d))%nat.
Proof.
  induction d as [|[k' v'] r IH]; simpl; [lia|].
  destruct (String.eqb k' k); simpl; lia.
Qed.

Lemma collect_from_length l : forall d,
  (List.length (TextLocator.collect_from d l)
   <= List.length d + List.length (retained_triples l))%nat.
Proof.
  unfold TextLocator.collect_from, retained_triples.
  induction l as [|t r IH]; simpl; intros d; [lia|].
  specialize (IH (TextLocator.step d t)).
  unfold TextLocator.step, TextLocator.retained in *.
  destruct (Qgtb (t_score t) TextLocator.threshold); simpl.
  - pose proof (set_length d (TextLocator.preprocess (t_text t))
                  (int_bbox (t_bbox t))). lia.
  - lia.
Qed.

(** X4: the mapping has no key twice and at most one entry per retained
    triple, so never more entries than the OCR output has triples. *)
Theorem mapping_size_bounded : forall text_,
  NoDup (PyDict.keys (TextLocator.collect text_)) /\
  (List.length (TextLocator.collect text_)
   <= List.length (retained_triples text_))%nat /\
  (List.length (retained_triples text_) <= List.length text_)%nat.
Proof.
  intros l. split; [|split].
  - apply collect_from_nodup. constructor.
  - apply (collect_from_length l []).
  - apply filter_length_le.
Qed.

Lemma set_not_empty {V : Type} (d : PyDict.t V) k v : PyDict.set d k v <> [].
Proof.
  destruct d as [|[k' v'] r]; simpl; [discriminate|].
  destruct (String.eqb k' k); discriminate.
Qed.

Lemma set_head {V : Type} (d : PyDict.t V) k v :
  d <> [] -> hd_error (PyDict.keys (PyDict.set d k v)) = hd_error (PyDict.keys d).
Proof.
  destruct d as [|[k' v'] r]; [contradiction|]. intros _. simpl.
  destruct (String.eqb k' k); reflexivity.
Qed.

Lemma collect_from_head l : forall d,
  d <> [] ->
  hd_error (PyDict.keys (TextLocator.collect_from d l))
  = hd_error (PyDict.keys d).
Proof.
  unfold TextLocator.collect_from.
  induction l as [|t r IH]; simpl; intros d Hd; [reflexivity|].
  unfold TextLocator.step at 2.
  destruct (Qgtb (t_score t) TextLocator.threshold).
  - rewrite IH by apply set_not_empty. now apply set_head.
  - now apply IH.
Qed.

(** X5: the first key of the mapping is the cleaned text of the first
    retained triple; a later triple with the same text replaces the box
    but does not move the key. *)
Theorem first_key_is_first_retained : forall text_,
  hd_error (PyDict.keys (TextLocator.collect text_))
  = hd_error (map (fun t => TextLocator.preprocess (t_text t))
                  (retained_triples text_)).
Proof.
  unfold TextLocator.collect, TextLocator.collect_from, retained_triples.
  induction text_ as [|t r IH]; simpl; [reflexivity|].
  unfold TextLocator.step at 2, TextLocator.retained.
  destruct (Qgtb (t_score t) TextLocator.threshold); simpl.
  - apply (collect_from_head r). discriminate.
  - exact IH.
Qed.

(** X6: when no triple of the OCR output scores above 0.25 (in
    particular when OCR finds nothing), the mapping is empty and the
    orchestrator fails with the index-out-of-range fault, whatever the
    recogniser. *)
Theorem low_confidence_gives_index_error : forall text_ nlp,
  (forall t, In t text_ -> t_score t <= (25 # 100)) ->
  TextLocator.collect text_ = [] /\
  Orchestrator.landmarking nlp (TextLocator.collect text_) = inl IndexError.
Proof.
  intros l nlp Hall.
  assert (He : TextLocator.collect l = []).
  { unfold TextLocator.collect, TextLocator.collect_from, PyDict.empty.
    induction l as [|t r IH]; simpl; [reflexivity|].
    rewrite step_discards by (apply Hall; now left).
    apply IH. intros t' Ht'. apply Hall. now right. }
  split; [exact He|]. now rewrite He.
Qed.

Lemma low_confidence_gives_index_error_witness :
  TextLocator.collect [Triple Sample.raw_box "Jane Doe" (25 # 100)] = [] /\
  Orchestrator.landmarking Sample.span_nlp
    (TextLocator.collect [Triple Sample.raw_box "Jane Doe" (25 # 100)])
  = inl IndexError.
Proof.
  apply (low_confidence_gives_index_error
           [Triple Sample.raw_box "Jane Doe" (25 # 100)] Sample.span_nlp).
  intros t [<-|[]]. simpl. apply Qle_refl.
Defined.

(* ================================================================== *)
(** * Candidates and the outcome of the orchestrator *)

(** X7: [ner] looks at the keys only and follows their order: over a
    mapping made of two parts it returns the candidates of the first part
    followed by those of the second, and two mappings with the same keys
    give the same candidates whatever their boxes. *)
Theorem ner_follows_key_order : forall nlp (d1 d2 : PyDict.t bbox),
  NameIdentifier.ner nlp (d1 ++ d2)
  = NameIdentifier.ner nlp d1 ++ NameIdentifier.ner nlp d2 /\
  (PyDict.keys d1 = PyDict.keys d2 ->
   NameIdentifier.ner nlp d1 = NameIdentifier.ner nlp d2).
Proof.
  intros nlp d1 d2. split.
  - rewrite !ner_filter. unfold all_ents, PyDict.keys.
    now rewrite map_app, flat_map_app, filter_app, map_app.
  - intros Hk. unfold NameIdentifier.ner. now rewrite Hk.
Qed.

Lemma ner_follows_key_order_witness :
  NameIdentifier.ner Sample.span_nlp [("Jane Doe", Sample.jane_box)]
  = NameIdentifier.ner Sample.span_nlp [("Jane Doe", [])].
Proof.
  apply (proj2 (ner_follows_key_order Sample.span_nlp
                  [("Jane Doe", Sample.jane_box)] [("Jane Doe", [])])).
  reflexivity.
Defined.

Lemma landmarking_cases nlp (d : PyDict.t bbox) :
  match NameIdentifier.ner nlp d with
  | [] => Orchestrator.landmarking nlp d = inl IndexError
  | top :: _ =>
      exists first last,
        PyStr.split PyStr.space top = [first; last] /\
        Orchestrator.landmarking nlp d
        = match PyDict.get d top with
          | Some b => inr (Result top first last b)
          | None => inl KeyError
          end
  end.
Proof.
  destruct (NameIdentifier.ner nlp d) as [|top rest] eqn:Hner.
  - unfold Orchestrator.landmarking. now rewrite Hner.
  - destruct (ner_head_two_tokens _ _ _ _ Hner) as (a & b & Hs).
    exists a, b. split; [exact Hs|].
    unfold Orchestrator.landmarking. rewrite Hner. simpl. rewrite Hs. simpl.
    unfold Orchestrator.lookup. now destruct (PyDict.get d top).
Qed.

(** X8: the orchestrator has three outcomes and no other.  It raises the
    index-out-of-range fault exactly when there is no candidate (the split
    of a candidate into two names never fails); it raises the missing-key
    fault exactly when the first candidate is not a key of the mapping;
    otherwise it returns a result. *)
Theorem landmarking_outcomes : forall nlp (d : PyDict.t bbox),
  (Orchestrator.landmarking nlp d = inl IndexError <->
   NameIdentifier.ner nlp d = []) /\
  (Orchestrator.landmarking nlp d = inl KeyError <->
   exists top rest, NameIdentifier.ner nlp d = top :: rest /\
                    PyDict.get d top = None) /\
  ((exists r, Orchestrator.landmarking nlp d = inr r) <->
   exists top rest b, NameIdentifier.ner nlp d = top :: rest /\
                      PyDict.get d top = Some b) /\
  Orchestrator.landmarking nlp d <> inl Cv2Error /\
  Orchestrator.landmarking nlp d <> inl UnidentifiedImageError.
Proof.
  intros nlp d. pose proof (landmarking_cases nlp d) as H.
  destruct (NameIdentifier.ner nlp d) as [|top rest] eqn:Hner.
  - rewrite H. repeat split; try discriminate; try reflexivity.
    + intros (? & ? & Hx & _). discriminate.
    + intros (? & Hx). discriminate.
    + intros (? & ? & ? & Hx & _). discriminate.
  - destruct H as (a & b & _ & ->).
    destruct (PyDict.get d top) as [bx|] eqn:Hget.
    + repeat split; try discriminate.
      * intros (t & r & Ht & Hg). inversion Ht; subst. congruence.
      * intros _. exists top, rest, bx. auto.
      * intros _. eauto.
    + repeat split; try discriminate.
      * intros _. exists top, rest. auto.
      * intros (? & Hx). discriminate.
      * intros (t & r & bx & Ht & Hg). inversion Ht; subst. congruence.
Qed.

(** X9: when the recogniser only reports entities that span the whole
    text it was given, every candidate is a key of the mapping: the
    missing-key fault cannot happen, and the orchestrator returns a result
    as soon as there is a candidate. *)
Theorem whole_fragment_entities_have_boxes :
  forall nlp (d : PyDict.t bbox),
    (forall k e, In e (nlp k) -> text e = k) ->
    (forall c, In c (NameIdentifier.ner nlp d) -> In c (PyDict.keys d)) /\
    Orchestrator.landmarking nlp d <> inl KeyError /\
    (NameIdentifier.ner nlp d <> [] ->
     exists r, Orchestrator.landmarking nlp d = inr r).
Proof.
  intros nlp d Hwhole.
  assert (Hkeys : forall c, In c (NameIdentifier.ner nlp d) ->
                            In c (PyDict.keys d)).
  { intros c Hc. apply ner_in in Hc.
    destruct Hc as (k & e & Hk & He & _ & _ & <-).
    now rewrite (Hwhole k e He). }
  pose proof (landmarking_cases nlp d) as H.
  destruct (NameIdentifier.ner nlp d) as [|top rest] eqn:Hner.
  - split; [exact Hkeys|]. rewrite H. split; [discriminate|].
    intros Hne. now contradiction Hne.
  - destruct H as (a & b & _ & ->).
    destruct (in_keys_get d top (Hkeys top (or_introl eq_refl))) as (bx & ->).
    split; [exact Hkeys|]. split; [discriminate|]. eauto.
Qed.

Lemma whole_fragment_entities_have_boxes_witness :
  exists r,
    Orchestrator.landmarking (fun s => [Ent "PERSON" s])
      [("Republic", []); ("Jane Doe", Sample.jane_box)] = inr r.
Proof.
  apply (proj2 (proj2 (whole_fragment_entities_have_boxes
                         (fun s => [Ent "PERSON" s])
                         [("Republic", []); ("Jane Doe", Sample.jane_box)]
                         (fun k e H =>
                            match H with
                            | or_introl Heq => f_equal text (eq_sym Heq)
                            | or_intror F => match F with end
                            end)))).
  discriminate.
Defined.

Lemma split_not_empty sep s : PyStr.split sep s <> [].
Proof.
  destruct s as [|c r]; simpl; [discriminate|].
  destruct (Ascii.eqb c sep); [discriminate|].
  destruct (PyStr.split sep r); discriminate.
Qed.

Lemma join_split sep s : join sep (PyStr.split sep s) = s.
Proof.
  induction s as [|c r IH]; [reflexivity|].
  simpl PyStr.split. pose proof (split_not_empty sep r) as Hne.
  destruct (Ascii.eqb_spec c sep) as [->|Hc].
  - destruct (PyStr.split sep r) as [|w ws]; [contradiction|].
    change (join sep (EmptyString :: w :: ws))
      with (String sep (join sep (w :: ws))).
    now rewrite IH.
  - destruct (PyStr.split sep r) as [|w ws]; [contradiction|].
    destruct ws as [|w' ws'].
    + simpl in *. now rewrite IH.
    + change (join sep (String c w :: w' :: ws'))
        with (String c (join sep (w :: w' :: ws'))).
      now rewrite IH.
Qed.

Lemma split_tokens_no_sep sep s : forall w,
  In w (PyStr.split sep s) -> ~ PyStr.In_str sep w.
Proof.
  induction s as [|c r IH]; simpl.
  - intros w [<-|[]] [].
  - destruct (Ascii.eqb_spec c sep) as [->|Hc].
    + intros w [<-|Hin]; [intros []|now apply IH].
    + destruct (PyStr.split sep r) as [|w0 ws].
      * intros w [<-|[]] [H|[]]. contradiction.
      * intros w [<-|Hin].
        -- intros [H|H]; [contradiction|].
           apply (IH w0); [now left | exact H].
        -- apply IH. now right.
Qed.

Lemma landmarking_result_shape :
  forall nlp (d : PyDict.t bbox) r,
    Orchestrator.landmarking nlp d = inr r ->
    (first_name r ++ " " ++ last_name r)%string = full_name r /\
    ~ PyStr.In_str " " (first_name r) /\
    ~ PyStr.In_str " " (last_name r) /\
    In (full_name r) (NameIdentifier.ner nlp d) /\
    PyDict.get d (full_name r) = Some (box r).
Proof.
  intros nlp d r Hr. pose proof (landmarking_cases nlp d) as H.
  destruct (NameIdentifier.ner nlp d) as [|top rest] eqn:Hner.
  - rewrite H in Hr. discriminate.
  - destruct H as (a & b & Hs & Heq). rewrite Heq in Hr.
    destruct (PyDict.get d top) as [bx|] eqn:Hget; [|discriminate].
    inversion Hr; subst r; simpl.
    pose proof (join_split PyStr.space top) as Hj. rewrite Hs in Hj.
    pose proof (split_tokens_no_sep PyStr.space top) as Hn. rewrite Hs in Hn.
    split; [exact Hj|]. split; [apply Hn; simpl; auto|].
    split; [apply Hn; simpl; auto|]. split; [now left | exact Hget].
Qed.

(** X10: in a result of the orchestrator the full name is the first
    name, one space and the last name; neither name contains a space, and
    the full name is one of the candidates. *)
Theorem result_names_rebuild_full_name :
  forall nlp (d : PyDict.t bbox) r,
    Orchestrator.landmarking nlp d = inr r ->
    (first_name r ++ " " ++ last_name r)%string = full_name r /\
    ~ PyStr.In_str " " (first_name r) /\
    ~ PyStr.In_str " " (last_name r) /\
    In (full_name r) (NameIdentifier.ner nlp d) /\
    PyDict.get d (full_name r) = Some (box r).
Proof. exact landmarking_result_shape. Qed.

Lemma result_names_rebuild_full_name_witness :
  ("Jane" ++ " " ++ "Doe")%string = "Jane Doe" /\
  ~ PyStr.In_str " " "Jane" /\
  ~ PyStr.In_str " " "Doe" /\
  In "Jane Doe"
     (NameIdentifier.ner Sample.span_nlp [("Jane Doe", Sample.jane_box)]) /\
  PyDict.get [("Jane Doe", Sample.jane_box)] "Jane Doe" = Some Sample.jane_box.
Proof.
  apply (result_names_rebuild_full_name
           Sample.span_nlp [("Jane Doe", Sample.jane_box)]
           (Result "Jane Doe" "Jane" "Doe" Sample.jane_box)).
  reflexivity.
Defined.

Lemma last_write_in k l : forall b,
  last_write k l = Some b ->
  exists t, In t l /\ TextLocator.retained t = true /\
            TextLocator.preprocess (t_text t) = k /\
            b = int_bbox (t_bbox t).
Proof.
  induction l as [|t r IH]; simpl; intros b; [discriminate|].
  destruct (last_write k r) as [b'|].
  - intros H. inversion H; subst b'.
    destruct (IH b eq_refl) as (t' & Hin & Hrest). exists t'. auto.
  - destruct (TextLocator.retained t) eqn:Hr; simpl; [|discriminate].
    destruct (String.eqb_spec (TextLocator.preprocess (t_text t)) k);
      [|discriminate].
    intros H. inversion H. exists t. auto.
Qed.

Lemma in_str_app_l c a b : PyStr.In_str c a -> PyStr.In_str c (a ++ b)%string.
Proof. induction a as [|x a IH]; simpl; [intros []|]. intros [H|H]; auto. Qed.

Lemma in_str_app_r c a b : PyStr.In_str c b -> PyStr.In_str c (a ++ b)%string.
Proof. induction a as [|x a IH]; simpl; auto. Qed.

(** X11: on the mapping built from an OCR output, the box of the result
    is the box, with integer coordinates, of a triple of that output that
    scored above 0.25 and whose cleaned text is the full name: the last
    such triple written.  The first and last names consist of letters
    only. *)
Theorem result_box_comes_from_ocr :
  forall nlp text_ r,
    Orchestrator.landmarking nlp (TextLocator.collect text_) = inr r ->
    last_write (full_name r) text_ = Some (box r) /\
    (exists t, In t text_ /\ (25 # 100) < t_score t /\
               TextLocator.preprocess (t_text t) = full_name r /\
               box r = int_bbox (t_bbox t)) /\
    (forall c, PyStr.In_str c (first_name r) \/ PyStr.In_str c (last_name r) ->
               PyStr.isalpha c = true).
Proof.
  intros nlp l r Hr.
  destruct (landmarking_result_shape nlp _ r Hr)
    as (Hj & Hf & Hl & _ & Hget).
  unfold TextLocator.collect in Hget. rewrite collect_from_get in Hget.
  destruct (last_write (full_name r) l) as [b|] eqn:Hlw; [|discriminate].
  inversion Hget; subst b. split; [reflexivity|].
  destruct (last_write_in _ _ _ Hlw) as (t & Hin & Hret & Hk & Hb).
  split.
  - exists t. repeat split; auto. now apply Qgtb_true in Hret.
  - intros c Hc.
    assert (Hfull : PyStr.In_str c (full_name r)).
    { rewrite <- Hj. destruct Hc as [Hc|Hc].
      - now apply in_str_app_l.
      - apply in_str_app_r. simpl. now right. }
    rewrite <- Hk in Hfull.
    destruct (preprocess_letters_and_spaces _ _ Hfull) as [Ha| ->];
      [exact Ha|].
    destruct Hc as [Hc|Hc]; contradiction.
Qed.

Lemma result_box_comes_from_ocr_witness :
  last_write "Jane Doe" [Triple Sample.raw_box "jane d0oe" (9 # 10)]
  = Some Sample.jane_box /\
  (exists t, In t [Triple Sample.raw_box "jane d0oe" (9 # 10)] /\
             (25 # 100) < t_score t /\
             TextLocator.preprocess (t_text t) = "Jane Doe" /\
             Sample.jane_box = int_bbox (t_bbox t)) /\
  (forall c, PyStr.In_str c "Jane" \/ PyStr.In_str c "Doe" ->
             PyStr.isalpha c = true).
Proof.
  apply (result_box_comes_from_ocr Sample.span_nlp
           [Triple Sample.raw_box "jane d0oe" (9 # 10)]
           (Result "Jane Doe" "Jane" "Doe" Sample.jane_box)).
  reflexivity.
Defined.

(* ================================================================== *)
(** * When skew correction rotates, and what a second run does *)




(** X13: when the raw and processed paths name different files, the
    raw image can be read and its save succeeds, running [correct_skew] a
    second time on the same file name succeeds and leaves every file as the
    first run left it. *)
Theorem correct_skew_twice :
  forall E self image_path w b arr img content,
    files w (resolve E (raw_data_folder self ++ image_path)%string) = Some b ->
    imread E b = Some arr ->
    pil_open E b = inr img ->
    save E (processed_data_folder self ++ image_path)%string
         (deskewed E arr img) = inr content ->
    resolve E (raw_data_folder self ++ image_path)%string
    <> resolve E (processed_data_folder self ++ image_path)%string ->
    let once := Extractor.correct_skew E self image_path w in
    let twice := Extractor.correct_skew E self image_path (snd once) in
    fst once = inr tt /\
    fst twice = inr tt /\
    (forall f, files (snd twice) f = files (snd once) f).
Proof.
  intros E self image_path w b arr img content Hf Hd Hp Hs Hne once twice.
  assert (Honce : once
            = (inr tt,
               World (Run.put (files w)
                        (resolve E (processed_data_folder self
                                    ++ image_path)%string) (Some content))
                     (trace w
                      ++ [ReadFile (resolve E (raw_data_folder self
                                               ++ image_path)%string);
                          ReadFile (resolve E (raw_data_folder self
                                               ++ image_path)%string);
                          WriteFile (resolve E (processed_data_folder self
                                                ++ image_path)%string)]))).
  { unfold once.
    now rewrite (correct_skew_run E self image_path w b arr img Hf Hd Hp), Hs. }
  assert (Hf1 : files (snd once)
                  (resolve E (raw_data_folder self ++ image_path)%string)
                = Some b).
  { rewrite Honce. simpl. now rewrite put_other. }
  split; [now rewrite Honce|].
  unfold twice.
  rewrite (correct_skew_run E self image_path (snd once) b arr img Hf1 Hd Hp),
    Hs.
  split; [reflexivity|]. intros f. simpl. rewrite Honce. simpl.
  unfold Run.put. now destruct (String.eqb f _).
Qed.

Lemma correct_skew_twice_witness :
  fst (Extractor.correct_skew Sample.caps Sample.two_folders "id.png"
         (snd (Extractor.correct_skew Sample.caps Sample.two_folders "id.png"
                 (Sample.disk "raw/" Sample.skewed_file))))
  = inr tt.
Proof.
  apply (correct_skew_twice Sample.caps Sample.two_folders "id.png"
           (Sample.disk "raw/" Sample.skewed_file)
           Sample.skewed_file [Byte.x01; Byte.x02] [Byte.x01; Byte.x02]
           [Byte.x00; Byte.x02; Byte.x01]
           eq_refl eq_refl eq_refl eq_refl).
  simpl. discriminate.
Defined.

Lemma extract_text_frame E self image_path w f :
  (forall fs, snd (new_reader E fs) = fs) ->
  f <> resolve E (processed_data_folder self ++ image_path)%string ->
  files (snd (Extractor.extract_text E self image_path w)) f = files w f.
Proof.
  intros Hreader Hf.
  pose proof (correct_skew_frame E self image_path w f Hf) as Hskew.
  destruct (fst (Extractor.correct_skew E self image_path w)) as [e|u] eqn:Ho.
  - now rewrite (extract_text_skew_fails E self image_path w e Ho).
  - destruct (files w (resolve E (raw_data_folder self ++ image_path)%string))
      as [b|] eqn:Hraw.
    + destruct (imread E b) as [arr|] eqn:Hd.
      * destruct (pil_open E b) as [e|img] eqn:Hp.
        -- rewrite (correct_skew_unopened E self image_path w b arr e
                      Hraw Hd Hp) in Ho. discriminate.
        -- destruct (save E (processed_data_folder self ++ image_path)%string
                       (deskewed E arr img)) as [e|content] eqn:Hs.
           ++ rewrite (correct_skew_run E self image_path w b arr img
                         Hraw Hd Hp), Hs in Ho. discriminate.
           ++ rewrite (extract_text_run E self image_path w b arr img content
                         Hraw Hd Hp Hs). simpl.
              destruct (imread E content) as [image|]; simpl.
              ** pose proof (Hreader
                               (Run.put (files w)
                                  (resolve E (processed_data_folder self
                                              ++ image_path)%string)
                                  (Some content))) as Hr.
                 destruct (new_reader E _) as [[e|u'] fs2]; simpl in *;
                   subst fs2; now apply put_other.
              ** now apply put_other.
      * rewrite correct_skew_unreadable in Ho; [discriminate|].
        now rewrite Hraw.
    + rewrite correct_skew_unreadable in Ho; [discriminate|].
      now rewrite Hraw.
Qed.

(** X14: whatever its outcome, a success or any exception,
    [correct_skew] changes no file other than the one its processed path
    names; the same holds of [text_extraction_and_landmarking] when loading
    the OCR reader leaves the files as they are. *)
Theorem skew_correction_writes_only_processed :
  forall E self image_path w f,
    f <> resolve E (processed_data_folder self ++ image_path)%string ->
    files (snd (Extractor.correct_skew E self image_path w)) f = files w f /\
    ((forall fs, snd (new_reader E fs) = fs) ->
     files (snd (Extractor.text_extraction_and_landmarking
                   E self image_path w)) f
     = files w f).
Proof.
  intros E self image_path w f Hf. split.
  - now apply correct_skew_frame.
  - intros Hreader. rewrite text_extraction_and_landmarking_run.
    pose proof (extract_text_frame E self image_path w f Hreader Hf) as H.
    destruct (Extractor.extract_text E self image_path w) as [[e|d] w'];
      exact H.
Qed.

Lemma skew_correction_writes_only_processed_witness :
  files (snd (Extractor.correct_skew Sample.caps Sample.two_folders "id.png"
                (Sample.disk "raw/" Sample.skewed_file))) "raw/id.png"
  = files (Sample.disk "raw/" Sample.skewed_file) "raw/id.png" /\
  files (snd (Extractor.text_extraction_and_landmarking
                Sample.caps Sample.two_folders "id.png"
                (Sample.disk "raw/" Sample.skewed_file))) "raw/id.png"
  = files (Sample.disk "raw/" Sample.skewed_file) "raw/id.png".
Proof.
  pose proof (skew_correction_writes_only_processed
                Sample.caps Sample.two_folders "id.png"
                (Sample.disk "raw/" Sample.skewed_file) "raw/id.png"
                ltac:(simpl; discriminate)) as H.
  split; [exact (proj1 H) | apply (proj2 H); reflexivity].
Defined.

(** X15: OCR reads the processed file, not the raw one.  When the raw
    image can be read and the processed image is saved, the outcome of
    [text_extraction_and_landmarking] is: a cv2 error if the saved file
    does not decode; else the exception of loading the OCR reader, if it
    raises; else the outcome of the orchestrator on the OCR output for the
    array decoded back from the saved file, in gray and inverted. *)
Theorem pipeline_outcome :
  forall E self image_path w b arr img content,
    files w (resolve E (raw_data_folder self ++ image_path)%string) = Some b ->
    imread E b = Some arr ->
    pil_open E b = inr img ->
    save E (processed_data_folder self ++ image_path)%string
         (deskewed E arr img) = inr content ->
    fst (Extractor.text_extraction_and_landmarking E self image_path w)
    = match imread E content with
      | None => inl Cv2Error
      | Some image =>
          match fst (new_reader E
                       (Run.put (files w)
                          (resolve E (processed_data_folder self
                                      ++ image_path)%string)
                          (Some content))) with
          | inl e => inl e
          | inr _ =>
              Orchestrator.landmarking (nlp E)
                (TextLocator.collect (readtext E (gray_inverted E image)))
          end
      end.
Proof.
  intros E self image_path w b arr img content Hf Hd Hp Hs.
  rewrite text_extraction_and_landmarking_run.
  rewrite (extract_text_run E self image_path w b arr img content Hf Hd Hp Hs).
  simpl. destruct (imread E content) as [image|]; [|reflexivity].
  now destruct (new_reader E _) as [[e|u] fs2].
Qed.

Lemma pipeline_outcome_witness :
  fst (Extractor.text_extraction_and_landmarking
         Sample.caps Sample.two_folders "id.png"
         (Sample.disk "raw/" Sample.skewed_file))
  = Orchestrator.landmarking Sample.span_nlp
      (TextLocator.collect [Triple Sample.raw_box "Jane Doe" (9 # 10)]).
Proof.
  apply (pipeline_outcome Sample.caps Sample.two_folders "id.png"
           (Sample.disk "raw/" Sample.skewed_file)
           Sample.skewed_file [Byte.x01; Byte.x02] [Byte.x01; Byte.x02]
           [Byte.x00; Byte.x02; Byte.x01]
           eq_refl eq_refl eq_refl eq_refl).
Defined.

(* ================================================================== *)
(** * The upload endpoint *)

Lemma endswith_cons c r suffix :
  App.endswith (String c r) suffix
  = String.eqb (String c r) suffix || App.endswith r suffix.
Proof. reflexivity. Qed.

Lemma no_name_ends_jpg_and_png s :
  App.endswith s ".jpg" = true -> App.endswith s ".png" = true -> False.
Proof.
  induction s as [|c r IH].
  - intros H. vm_compute in H. discriminate.
  - rewrite !endswith_cons.
    destruct (String.eqb_spec (String c r) ".jpg") as [Heq|Hj].
    + inversion Heq; subst. intros _ H. vm_compute in H. discriminate.
    + destruct (String.eqb_spec (String c r) ".png") as [Heq|Hp].
      * inversion Heq; subst. intros H _. vm_compute in H. discriminate.
      * simpl. exact IH.
Qed.

Lemma format_never_rejected name : App.format_rejected name = false.
Proof.
  unfold App.format_rejected. simpl.
  destruct (App.endswith name ".jpg") eqn:Hj;
    destruct (App.endswith name ".png") eqn:Hp;
    rewrite ?andb_false_r, ?andb_false_l; try reflexivity.
  exfalso. exact (no_name_ends_jpg_and_png name Hj Hp).
Qed.

(** Computations of the extractor only add to the trace. *)
Lemma only_appends_bind {A B : Type} (c : Run.M A) (f : A -> Run.M B) :
  only_appends c -> (forall x, only_appends (f x)) ->
  only_appends (Run.bind c f).
Proof.
  intros Hc Hf w. unfold Run.bind.
  destruct (Hc w) as (l1 & H1).
  destruct (c w) as [[e|x] w1]; simpl in *.
  - eauto.
  - destruct (Hf x w1) as (l2 & H2). exists (l1 ++ l2).
    now rewrite H2, H1, app_assoc.
Qed.

Lemma only_appends_ret {A : Type} (x : A) : only_appends (Run.ret x).
Proof. intros w. exists []. simpl. now rewrite app_nil_r. Qed.

Lemma only_appends_raise {A : Type} e : only_appends (@Run.raise A e).
Proof. intros w. exists []. simpl. now rewrite app_nil_r. Qed.

Lemma only_appends_lift {A : Type} (r : exn + A) : only_appends (Run.lift r).
Proof. intros w. exists []. simpl. now rewrite app_nil_r. Qed.

Lemma only_appends_read file : only_appends (Run.read_file file).
Proof. intros w. simpl. eauto. Qed.

Lemma only_appends_emit e : only_appends (Run.emit e).
Proof. intros w. simpl. eauto. Qed.

Lemma only_appends_save E img path :
  only_appends (Extractor.image_save E img path).
Proof.
  intros w. unfold Extractor.image_save.
  destruct (save E path img); simpl; eauto.
Qed.

Lemma only_appends_reader E : only_appends (Extractor.make_reader E).
Proof.
  intros w. unfold Extractor.make_reader.
  destruct (new_reader E (files w)); simpl. eauto.
Qed.

Lemma only_appends_imread E path : only_appends (Extractor.cv2_imread E path).
Proof.
  apply only_appends_bind; [apply only_appends_read|].
  intros x. apply only_appends_ret.
Qed.

Lemma only_appends_open E path : only_appends (Extractor.image_open E path).
Proof.
  apply only_appends_bind; [apply only_appends_read|].
  intros [b|]; [apply only_appends_lift | apply only_appends_raise].
Qed.

Lemma only_appends_skew E self image_path :
  only_appends (Extractor.correct_skew E self image_path).
Proof.
  apply only_appends_bind; [apply only_appends_imread|]. intros img.
  apply only_appends_bind; [apply only_appends_lift|]. intros angle.
  apply only_appends_bind; [apply only_appends_open|]. intros i.
  apply only_appends_save.
Qed.

Lemma only_appends_pipeline E self image_path :
  only_appends (Extractor.text_extraction_and_landmarking E self image_path).
Proof.
  apply only_appends_bind; [|intros d; apply only_appends_lift].
  apply only_appends_bind; [apply only_appends_skew|]. intros _.
  apply only_appends_bind; [apply only_appends_imread|]. intros img.
  apply only_appends_bind; [apply only_appends_lift|]. intros gray.
  apply only_appends_bind; [apply only_appends_reader|]. intros _.
  apply only_appends_bind; [apply only_appends_emit|]. intros _.
  apply only_appends_ret.
Qed.

(** X16: the format test of [upload_file] rejects no file name, since
    no name ends with the three extensions at once: the invalid-format
    response is never returned, and for every request that carries a file
    the next step is the save of the upload, whose exception escapes if it
    raises and whose write to the raw folder is done otherwise, whatever
    the name of the file. *)
Theorem upload_format_check_never_rejects :
  forall E self S req w file,
    App.file_part req = Some file ->
    let file_path := App.path_join (raw_data_folder self)
                       (App.secure_filename S (App.filename file)) in
    let out := App.upload_file E self S req w in
    App.format_rejected (App.filename file) = false /\
    (forall status,
        fst out
        <> inr (App.JsonError
                  "Invalid file format. Should be .jpeg, .jpg or .png"
                  status)) /\
    (forall e, App.refused S file_path = Some e ->
               out = (inl (App.Raised e), w)) /\
    (App.refused S file_path = None ->
     In (WriteFile (resolve E file_path)) (trace (snd out))).
Proof.
  intros E self S req w file Hfile file_path out.
  split; [apply format_never_rejected|].
  unfold out, App.upload_file, App.save_upload.
  rewrite Hfile, format_never_rejected. fold file_path.
  destruct (App.refused S file_path) as [e0|] eqn:Href.
  - split; [discriminate|]. split; [|discriminate].
    intros e He. now inversion He.
  - simpl. set (w1 := World _ _).
    assert (Hw1 : In (WriteFile (resolve E file_path)) (trace w1)).
    { unfold w1. simpl. apply in_or_app. right. now left. }
    destruct (App.form req "first_name") as [first|];
      [|split; [discriminate|split; [discriminate | intros _; exact Hw1]]].
    destruct (App.form req "last_name") as [last|];
      [|split; [discriminate|split; [discriminate | intros _; exact Hw1]]].
    destruct (only_appends_pipeline E self
                (App.secure_filename S (App.filename file)) w1)
      as (later & Hlater).
    destruct (Extractor.text_extraction_and_landmarking E self _ w1)
      as [[e|r] w2]; simpl in *;
      (split; [discriminate|split; [discriminate|]]);
      intros _; rewrite Hlater; apply in_or_app; now left.
Qed.

Lemma upload_format_check_never_rejects_witness :
  App.format_rejected "malware.exe" = false /\
  In (WriteFile "raw/malware.exe")
     (trace (snd (App.upload_file Sample.caps Sample.two_folders
                    SampleApp.server
                    (SampleApp.upload "malware.exe" (Some "jane") (Some "doe"))
                    Sample.empty_disk))).
Proof.
  pose proof (upload_format_check_never_rejects
                Sample.caps Sample.two_folders SampleApp.server
                (SampleApp.upload "malware.exe" (Some "jane") (Some "doe"))
                Sample.empty_disk
                {| App.filename := "malware.exe";
                   App.stream := Sample.level_file |}
                eq_refl) as H.
  split; [exact (proj1 H) | exact (proj2 (proj2 (proj2 H)) eq_refl)].
Defined.

(** X17: when the save of the upload succeeds and the form lacks
    [first_name] or [last_name], [upload_file] raises [AttributeError]
    instead of answering; by then the upload has been written to the raw
    folder, and nothing else has happened. *)
Theorem upload_without_names_raises :
  forall E self S req w file,
    App.file_part req = Some file ->
    App.form req "first_name" = None \/ App.form req "last_name" = None ->
    let file_path := App.path_join (raw_data_folder self)
                       (App.secure_filename S (App.filename file)) in
    App.refused S file_path = None ->
    let out := App.upload_file E self S req w in
    fst out = inl App.AttributeError /\
    files (snd out) (resolve E file_path) = Some (App.stream file) /\
    (forall f, f <> resolve E file_path -> files (snd out) f = files w f) /\
    trace (snd out) = trace w ++ [WriteFile (resolve E file_path)].
Proof.
  intros E self S req w file Hfile Hmiss file_path Href out.
  unfold out, App.upload_file, App.save_upload.
  rewrite Hfile, format_never_rejected. fold file_path. rewrite Href.
  simpl.
  assert (Hdone :
    Run.put (files w) (resolve E file_path) (Some (App.stream file))
            (resolve E file_path) = Some (App.stream file) /\
    (forall f, f <> resolve E file_path ->
               Run.put (files w) (resolve E file_path)
                       (Some (App.stream file)) f = files w f)).
  { split; [apply put_same | intros f Hf; now apply put_other]. }
  destruct Hdone as [Hsame Hother].
  destruct (App.form req "first_name") as [first|]; [|now repeat split].
  destruct (App.form req "last_name") as [last|]; [|now repeat split].
  destruct Hmiss; discriminate.
Qed.

Lemma upload_without_names_raises_witness :
  fst (App.upload_file Sample.caps Sample.two_folders SampleApp.server
         (SampleApp.upload "id.png" (Some "jane") None) Sample.empty_disk)
  = inl App.AttributeError.
Proof.
  apply (upload_without_names_raises
           Sample.caps Sample.two_folders SampleApp.server
           (SampleApp.upload "id.png" (Some "jane") None) Sample.empty_disk
           {| App.filename := "id.png"; App.stream := Sample.level_file |}
           eq_refl (or_intror eq_refl) eq_refl).
Defined.

(** X18: when the raw folder ends with a slash and the secured file
    name is not absolute, the upload is saved exactly where the extractor
    reads.  If that save succeeds, both libraries decode the upload and the
    processed image is saved, the outcome is that of the orchestrator on
    the OCR of the saved processed image: its exception escapes, and its
    result is answered with its first name, last name and box. *)
Theorem upload_processes_the_uploaded_image :
  forall E self S req w file first last arr img content image,
    App.file_part req = Some file ->
    App.form req "first_name" = Some first ->
    App.form req "last_name" = Some last ->
    App.endswith (raw_data_folder self) "/" = true ->
    let name := App.secure_filename S (App.filename file) in
    String.prefix "/" name = false ->
    App.refused S (raw_data_folder self ++ name)%string = None ->
    imread E (App.stream file) = Some arr ->
    pil_open E (App.stream file) = inr img ->
    save E (processed_data_folder self ++ name)%string (deskewed E arr img)
    = inr content ->
    imread E content = Some image ->
    (forall fs, fst (new_reader E fs) = inr tt) ->
    let out := App.upload_file E self S req w in
    let found := Orchestrator.landmarking (nlp E)
                   (TextLocator.collect
                      (readtext E (gray_inverted E image))) in
    App.path_join (raw_data_folder self) name
    = (raw_data_folder self ++ name)%string /\
    (forall e, found = inl e -> fst out = inl (App.Raised e)) /\
    (forall r, found = inr r ->
               exists score,
                 fst out = inr (App.JsonResult (first_name r) (last_name r)
                                               (box r) score)).
Proof.
  intros E self S req w file first last arr img content image
         Hfile Hfirst Hlast Hslash name Hrel Href Hd Hp Hs Hd2 Hreader
         out found.
  assert (Hjoin : App.path_join (raw_data_folder self) name
                  = (raw_data_folder self ++ name)%string).
  { unfold App.path_join. now rewrite Hrel, Hslash, orb_true_r. }
  split; [exact Hjoin|].
  assert (Hout : fst out
                 = match found with
                   | inl e => inl (App.Raised e)
                   | inr r =>
                       inr (App.JsonResult (first_name r) (last_name r)
                              (box r)
                              (get_similarity_score (full_name r)
                                 (App.str_title S first ++ " "
                                  ++ App.str_title S last)))
                   end).
  { unfold out, App.upload_file, App.save_upload.
    rewrite Hfile, format_never_rejected. fold name.
    rewrite Hjoin, Href, Hfirst, Hlast. simpl.
    set (w1 := World _ _).
    assert (Hf : files w1 (resolve E (raw_data_folder self ++ name)%string)
                 = Some (App.stream file)).
    { unfold w1. simpl. apply put_same. }
    rewrite text_extraction_and_landmarking_run.
    rewrite (extract_text_run E self name w1 _ arr img content Hf Hd Hp Hs).
    simpl. rewrite Hd2.
    pose proof (Hreader
                  (Run.put (files w1)
                     (resolve E (processed_data_folder self ++ name)%string)
                     (Some content))) as Hr.
    destruct (new_reader E _) as [[e|u] fs2]; simpl in Hr; [discriminate|].
    simpl. fold found. now destruct found. }
  split.
  - intros e He. now rewrite Hout, He.
  - intros r Hr. rewrite Hout, Hr. eauto.
Qed.

Lemma upload_processes_the_uploaded_image_witness :
  exists score,
    fst (App.upload_file Sample.caps Sample.two_folders SampleApp.server
           (SampleApp.upload "id.png" (Some "jane") (Some "DOE"))
           Sample.empty_disk)
    = inr (App.JsonResult "Jane" "Doe" Sample.jane_box score).
Proof.
  apply (proj2 (proj2 (upload_processes_the_uploaded_image
                         Sample.caps Sample.two_folders SampleApp.server
                         (SampleApp.upload "id.png" (Some "jane") (Some "DOE"))
                         Sample.empty_disk
                         {| App.filename := "id.png";
                            App.stream := Sample.level_file |}
                         "jane" "DOE" [Byte.x02; Byte.x03] [Byte.x02; Byte.x03]
                         [Byte.x00; Byte.x02; Byte.x03] [Byte.x02; Byte.x03]
                         eq_refl eq_refl eq_refl eq_refl eq_refl eq_refl
                         eq_refl eq_refl eq_refl eq_refl
                         (fun _ => eq_refl)))
           (Result "Jane Doe" "Jane" "Doe" Sample.jane_box)).
  reflexivity.
Defined.

(** X19: when the raw folder is not empty and does not end with a slash,
    the upload is saved under the folder, a slash and the name, while the
    extractor reads the folder immediately followed by the name.  When the
    save succeeds, the two paths name different files and no file sits at
    the second one, the request fails in OpenCV although the upload was
    stored. *)
Theorem upload_misses_file_without_slash :
  forall E self S req w file first last,
    App.file_part req = Some file ->
    App.form req "first_name" = Some first ->
    App.form req "last_name" = Some last ->
    raw_data_folder self <> "" ->
    App.endswith (raw_data_folder self) "/" = false ->
    let name := App.secure_filename S (App.filename file) in
    String.prefix "/" name = false ->
    let saved := (raw_data_folder self ++ "/" ++ name)%string in
    let read := (raw_data_folder self ++ name)%string in
    App.refused S saved = None ->
    resolve E saved <> resolve E read ->
    files w (resolve E read) = None ->
    let out := App.upload_file E self S req w in
    App.path_join (raw_data_folder self) name = saved /\
    fst out = inl (App.Raised Cv2Error) /\
    files (snd out) (resolve E saved) = Some (App.stream file) /\
    files (snd out) (resolve E read) = None.
Proof.
  intros E self S req w file first last
         Hfile Hfirst Hlast Hne Hslash name Hrel saved read
         Href Hdiff Hnone out.
  assert (Hjoin : App.path_join (raw_data_folder self) name = saved).
  { unfold App.path_join. rewrite Hrel, Hslash.
    destruct (String.eqb_spec (raw_data_folder self) "");
      [contradiction | reflexivity]. }
  split; [exact Hjoin|].
  unfold out, App.upload_file, App.save_upload.
  rewrite Hfile, format_never_rejected. fold name.
  rewrite Hjoin, Href, Hfirst, Hlast. simpl.
  set (w1 := World _ _).
  assert (Hf : files w1 (resolve E read) = None).
  { unfold w1. simpl. rewrite put_other; [exact Hnone|].
    intros Heq. apply Hdiff. now symmetry. }
  rewrite text_extraction_and_landmarking_run.
  rewrite (extract_text_skew_fails E self name w1 Cv2Error);
    rewrite (correct_skew_unreadable E self name w1)
      by (fold read; now rewrite Hf); simpl; [|reflexivity].
  split; [reflexivity|]. split; [apply put_same | exact Hf].
Qed.

Lemma upload_misses_file_without_slash_witness :
  fst (App.upload_file Sample.caps SampleApp.no_slash SampleApp.server
         (SampleApp.upload "id.png" (Some "jane") (Some "doe"))
         Sample.empty_disk)
  = inl (App.Raised Cv2Error).
Proof.
  apply (upload_misses_file_without_slash
           Sample.caps SampleApp.no_slash SampleApp.server
           (SampleApp.upload "id.png" (Some "jane") (Some "doe"))
           Sample.empty_disk
           {| App.filename := "id.png"; App.stream := Sample.level_file |}
           "jane" "doe" eq_refl eq_refl eq_refl
           ltac:(discriminate) eq_refl eq_refl eq_refl
           ltac:(simpl; discriminate) eq_refl).
Defined.

Lemma title_from_lowercase s : forall b,
  PyStr.title_from b (lowercase s) = PyStr.title_from b s.
Proof.
  induction s as [|c r IH]; intros b; simpl; [reflexivity|].
  rewrite isalpha_lower, IH. destruct b.
  - now rewrite lower_lower.
  - now rewrite upper_lower.
Qed.

Lemma title_same_up_to_case s1 s2 :
  lowercase s1 = lowercase s2 -> PyStr.title s1 = PyStr.title s2.
Proof.
  intros H. unfold PyStr.title.
  rewrite <- (title_from_lowercase s1), <- (title_from_lowercase s2).
  now rewrite H.
Qed.

(** X20: ASCII names are compared without regard to case.  Given that
    Python title-cases ASCII text as the cleaning of the extractor does,
    two requests with the same file whose first and last names are ASCII
    and differ only in the case of their letters get the same outcome. *)
Theorem upload_ignores_case_of_names :
  forall E self S req1 req2 w,
    (forall s, ascii_only s -> App.str_title S s = PyStr.title s) ->
    App.file_part req1 = App.file_part req2 ->
    (forall k, k = "first_name" \/ k = "last_name" ->
       match App.form req1 k, App.form req2 k with
       | Some a, Some b =>
           ascii_only a /\ ascii_only b /\ lowercase a = lowercase b
       | None, None => True
       | _, _ => False
       end) ->
    App.upload_file E self S req1 w = App.upload_file E self S req2 w.
Proof.
  intros E self S req1 req2 w Htitle Hfile Hform.
  unfold App.upload_file. rewrite Hfile.
  destruct (App.file_part req2) as [file|]; [|reflexivity].
  destruct (App.format_rejected (App.filename file)); [reflexivity|].
  destruct (App.save_upload E S _ _ w) as [[e|u] w1]; [reflexivity|].
  pose proof (Hform "first_name" (or_introl eq_refl)) as Hf.
  pose proof (Hform "last_name" (or_intror eq_refl)) as Hl.
  destruct (App.form req1 "first_name") as [f1|],
           (App.form req2 "first_name") as [f2|];
    try contradiction; [|reflexivity].
  destruct (App.form req1 "last_name") as [l1|],
           (App.form req2 "last_name") as [l2|];
    try contradiction; [|reflexivity].
  destruct Hf as (Ha1 & Ha2 & Hf). destruct Hl as (Hb1 & Hb2 & Hl).
  rewrite (Htitle f1 Ha1), (Htitle f2 Ha2), (Htitle l1 Hb1), (Htitle l2 Hb2).
  now rewrite (title_same_up_to_case f1 f2 Hf),
              (title_same_up_to_case l1 l2 Hl).
Qed.

Lemma ascii_only_literal s :
  forallb (fun c => (PyStr.code c <? 128)%nat) (list_ascii_of_string s) = true ->
  ascii_only s.
Proof.
  induction s as [|c r IH]; simpl; [intros _ x []|].
  intros H. apply andb_true_iff in H. destruct H as [Hc Hr].
  intros x [<-|Hx]; [now apply Nat.ltb_lt | now apply IH].
Qed.

Lemma upload_ignores_case_of_names_witness :
  App.upload_file Sample.caps Sample.two_folders SampleApp.server
    (SampleApp.upload "id.png" (Some "jane") (Some "DOE")) Sample.empty_disk
  = App.upload_file Sample.caps Sample.two_folders SampleApp.server
      (SampleApp.upload "id.png" (Some "JANE") (Some "doe")) Sample.empty_disk.
Proof.
  apply (upload_ignores_case_of_names
           Sample.caps Sample.two_folders SampleApp.server
           (SampleApp.upload "id.png" (Some "jane") (Some "DOE"))
           (SampleApp.upload "id.png" (Some "JANE") (Some "doe"))
           Sample.empty_disk (fun s _ => eq_refl) eq_refl).
  intros k [->| ->]; simpl;
    (split; [|split]; [apply ascii_only_literal | apply ascii_only_literal |];
     reflexivity).
Defined.

(* ================================================================== *)
(** * Triples below the threshold *)

Lemma collect_from_retained l : forall d,
  TextLocator.collect_from d l
  = TextLocator.collect_from d (retained_triples l).
Proof.
  unfold TextLocator.collect_from, retained_triples.
  induction l as [|t r IH]; simpl; intros d; [reflexivity|].
  destruct (TextLocator.retained t) eqn:Hq; simpl.
  - apply IH.
  - rewrite (step_discards d t); [apply IH|].
    now apply Qgtb_false.
Qed.

(** X21: triples at or below the threshold have no influence on the
    mapping: it is the same, entries and order, as the mapping built from
    the retained triples alone, wherever the others stand in the OCR
    output. *)
Theorem discarded_triples_leave_no_trace : forall text_,
  TextLocator.collect text_ = TextLocator.collect (retained_triples text_).
Proof. intros l. apply collect_from_retained. Qed.
